(** * The plugin command registry and its safe-command converter

    A shallow embedding of
    [packages/plugin-ext/src/plugin/command-registry.ts]: the class
    [CommandRegistryImpl] (a table of command identifiers and handlers that
    is mirrored to a remote counterpart through an RPC proxy) and the class
    [CommandsConverter] (which replaces the argument list of a command by a
    numeric handle so that the command can cross the RPC boundary).

    The two objects are modelled by records, their methods by functions that
    pass the registry explicitly.  Methods that can [throw] live in a small
    state-and-exception monad; the asynchronous execution path returns the
    way its promise settles. *)

From stdpp Require Import gmap strings list fin_maps.

Local Open Scope Z_scope.

(** ** Values *)

(** The part of the JS value universe ([any]) that the registry tells apart.
    [VError m] is [new Error(m)]; [VObject] is an opaque object reference. *)
Inductive Value :=
| VUndefined
| VNull
| VBoolean (b : bool)
| VNumber (n : Z)
| VString (s : string)
| VError (message : string)
| VObject (ref : nat).

(** How a promise settles.  A handler that throws inside the [async]
    [executeLocalCommand] settles as [Rejected] as well. *)
Inductive Outcome :=
| Resolved (v : Value)
| Rejected (reason : Value).

(** [theia.CommandDescription]: only [id] is read by the registry. *)
Record CommandDescription := {
  desc_id : string;
  desc_label : option string
}.

(** Modelled from the spec: the declaration of [theia.Command] is not part of
    the sources.  The spec gives a command an identifier, an optional display
    label and an optional argument list; the code reads the properties
    [command] and [arguments], both optional. *)
Record Command := {
  cmd_command : option string;
  cmd_label : option string;
  cmd_arguments : option (list Value)
}.

(** JS truthiness of an optional string: [undefined] and the empty string
    are falsy. *)
Definition truthy (s : option string) : option string :=
  match s with
  | Some EmptyString => None
  | other => other
  end.

(** [type Handler]: either a function of the plugin, which the model takes as
    a function of its receiver and arguments, or the converter's own method
    [executeSafeCommand], which re-enters the registry. *)
Inductive Handler :=
| HFunction (f : Value -> list Value -> Outcome)
| HExecuteSafeCommand.

(** The closure [(...args) => handler.apply(thisArg, args)] that
    [registerHandler] stores. *)
Record BoundHandler := {
  bh_handler : Handler;
  bh_thisArg : Value
}.

(** [interface ArgumentProcessor]: its one method, [processArgument]. *)
Definition ArgumentProcessor := Value -> Value.

(** Calls issued on the RPC proxy ([CommandRegistryMain]). *)
Inductive ProxyCall :=
| PRegisterCommand (command : CommandDescription)
| PUnregisterCommand (id : string)
| PRegisterHandler (commandId : string)
| PUnregisterHandler (commandId : string)
| PExecuteCommand (id : string) (args : list Value).

(** ** The two objects *)

Record CommandsConverter := {
  safeCommandId : string;
  commandsMap : gmap Z Command;
  handle : Z;
  isSafeCommandRegistered : bool
}.

(** [proxy] records the calls issued on the proxy, oldest first. *)
Record CommandRegistryImpl := {
  proxy : list ProxyCall;
  commands : gset string;
  handlers : gmap string BoundHandler;
  argumentProcessors : list ArgumentProcessor;
  commandsConverter : CommandsConverter
}.

Definition set_proxy (p : list ProxyCall) (r : CommandRegistryImpl) :=
  {| proxy := p; commands := commands r; handlers := handlers r;
     argumentProcessors := argumentProcessors r;
     commandsConverter := commandsConverter r |}.

Definition set_commands (c : gset string) (r : CommandRegistryImpl) :=
  {| proxy := proxy r; commands := c; handlers := handlers r;
     argumentProcessors := argumentProcessors r;
     commandsConverter := commandsConverter r |}.

Definition set_handlers (h : gmap string BoundHandler) (r : CommandRegistryImpl) :=
  {| proxy := proxy r; commands := commands r; handlers := h;
     argumentProcessors := argumentProcessors r;
     commandsConverter := commandsConverter r |}.

Definition set_argumentProcessors (ps : list ArgumentProcessor) (r : CommandRegistryImpl) :=
  {| proxy := proxy r; commands := commands r; handlers := handlers r;
     argumentProcessors := ps;
     commandsConverter := commandsConverter r |}.

Definition set_commandsConverter (c : CommandsConverter) (r : CommandRegistryImpl) :=
  {| proxy := proxy r; commands := commands r; handlers := handlers r;
     argumentProcessors := argumentProcessors r;
     commandsConverter := c |}.

(** A call on the proxy: the message is sent, the answer is not awaited. *)
Definition call (c : ProxyCall) (r : CommandRegistryImpl) : CommandRegistryImpl :=
  set_proxy (proxy r ++ [c]) r.

(** [new CommandsConverter(commands)]; [stamp] is [Date.now().toString()]. *)
Definition new_CommandsConverter (stamp : string) : CommandsConverter :=
  {| safeCommandId := "theia_safe_cmd_" +:+ stamp;
     commandsMap := ∅;
     handle := 0;
     isSafeCommandRegistered := false |}.

(** [new CommandRegistryImpl(rpc)]. *)
Definition new_CommandRegistryImpl (stamp : string) : CommandRegistryImpl :=
  {| proxy := [];
     commands := ∅;
     handlers := ∅;
     argumentProcessors := [];
     commandsConverter := new_CommandsConverter stamp |}.

(** The converter object, as the receiver it passes for its own handler. *)
Definition converterRef : Value := VObject 0.

(** ** Disposables *)

(** The release closures the source creates, as data: lines 62-65
    ([UnregisterCommand]), 77-80 ([UnregisterHandler]) and 169
    ([DeleteSafeCommand]); [DisposableFrom] is [Disposable.from(...)]. *)
#[warnings="-register-all"]
Inductive Disposable :=
| UnregisterCommand (id : string)
| UnregisterHandler (commandId : string)
| DeleteSafeCommand (id : Z)
| DisposableFrom (toDispose : list Disposable).

(** Modelled from the spec: the class [Disposable] of [./types-impl] is not
    part of the sources.  Releasing runs the closure; a composite releases
    its members in the order they were given. *)
Fixpoint dispose (d : Disposable) (r : CommandRegistryImpl) : CommandRegistryImpl :=
  match d with
  | UnregisterCommand id =>
      call (PUnregisterCommand id) (set_commands (commands r ∖ {[id]}) r)
  | UnregisterHandler commandId =>
      call (PUnregisterHandler commandId) (set_handlers (delete commandId (handlers r)) r)
  | DeleteSafeCommand id =>
      let conv := commandsConverter r in
      set_commandsConverter
        {| safeCommandId := safeCommandId conv;
           commandsMap := delete id (commandsMap conv);
           handle := handle conv;
           isSafeCommandRegistered := isSafeCommandRegistered conv |} r
  | DisposableFrom toDispose =>
      fold_left (fun r' d' => dispose d' r') toDispose r
  end.

(** Modelled from the spec: [DisposableCollection] of [@theia/core] is not
    part of the sources.  The spec has it accumulate releasable resources
    and release them together; the model releases the member pushed last
    first. *)
Definition DisposableCollection := list Disposable.

Definition push (d : Disposable) (disposables : DisposableCollection) : DisposableCollection :=
  disposables ++ [d].

Definition dispose_collection (disposables : DisposableCollection) (r : CommandRegistryImpl)
  : CommandRegistryImpl :=
  foldr dispose r disposables.

(** ** Completions: a state-and-exception monad *)

(** A synchronous method either returns or throws; what it wrote to the
    registry before throwing stays written. *)
Inductive Completion (A : Type) :=
| Returned (a : A) (r : CommandRegistryImpl)
| Thrown (e : Value) (r : CommandRegistryImpl).

Arguments Returned {A} a r.
Arguments Thrown {A} e r.

Definition M (A : Type) : Type := CommandRegistryImpl -> Completion A.

#[global] Instance M_ret : MRet M := fun A a r => Returned a r.

#[global] Instance M_bind : MBind M := fun A B f m r =>
  match m r with
  | Returned a r' => f a r'
  | Thrown e r' => Thrown e r'
  end.

Definition throw {A} (e : Value) : M A := fun r => Thrown e r.

Definition get : M CommandRegistryImpl := fun r => Returned r r.

Definition modify (f : CommandRegistryImpl -> CommandRegistryImpl) : M unit :=
  fun r => Returned tt (f r).

(** The double quote character, for the messages that quote an identifier. *)
Definition dquote : string := String (Ascii.ascii_of_nat 34) EmptyString.

(** ** CommandRegistryImpl *)

(** [registerHandler(commandId, handler, thisArg)], lines 70-81. *)
Definition registerHandler (commandId : string) (handler : Handler) (thisArg : Value)
  : M Disposable :=
  r ← get;
  if decide (is_Some (handlers r !! commandId)) then
    throw (VError ("Command " +:+ dquote +:+ commandId +:+ dquote +:+ " already has handler"))
  else
    modify (call (PRegisterHandler commandId));;
    modify (fun r => set_handlers
              (<[commandId := {| bh_handler := handler; bh_thisArg := thisArg |}]> (handlers r)) r);;
    mret (UnregisterHandler commandId).

(** [registerCommand(command, handler?, thisArg?)], lines 51-67.  An absent
    [thisArg] is [VUndefined]. *)
Definition registerCommand (command : CommandDescription) (handler : option Handler)
    (thisArg : Value) : M Disposable :=
  r ← get;
  if decide (desc_id command ∈ commands r) then
    throw (VError ("Command " +:+ desc_id command +:+ " already exist"))
  else
    modify (fun r => set_commands (commands r ∪ {[desc_id command]}) r);;
    modify (call (PRegisterCommand command));;
    toDispose ← match handler with
                | Some h => d ← registerHandler (desc_id command) h thisArg; mret [d]
                | None => mret []
                end;
    mret (DisposableFrom (toDispose ++ [UnregisterCommand (desc_id command)])).

(** [registerArgumentProcessor(processor)], lines 129-131. *)
Definition registerArgumentProcessor (processor : ArgumentProcessor)
    (r : CommandRegistryImpl) : CommandRegistryImpl :=
  set_argumentProcessors (argumentProcessors r ++ [processor]) r.

(** The callback of [args.map] in [executeLocalCommand]:
    [argumentProcessors.reduce((r, p) => p.processArgument(r), arg)]. *)
Definition processArgument (ps : list ArgumentProcessor) (arg : Value) : Value :=
  fold_left (fun r p => p r) ps arg.

(** ** Execution *)

(** How an execution ends: [None] when the nesting bound of the model is
    exhausted, otherwise the way the promise settles and the registry (only
    its proxy log can have grown). *)
Definition Execution : Type := option (Outcome * CommandRegistryImpl).

(** [commandsMap.get(args[0])]: the map is keyed by numbers, so any other
    value (also the [undefined] of an empty argument list) finds nothing. *)
Definition getSafeCommand (conv : CommandsConverter) (args : list Value) : option Command :=
  match head args with
  | Some (VNumber id) => commandsMap conv !! id
  | _ => None
  end.

Section Execution.

(** The two collaborators of [executeCommand] that are not part of the
    sources, taken as parameters: the table behind [KnownCommands.map], which
    translates an identifier and its arguments before they are forwarded, and
    the way the remote side settles a forwarded [$executeCommand]. *)
Variable KnownCommands_map : string -> list Value -> string * list Value.
Variable main_executeCommand : string -> list Value -> Outcome.

Section Bodies.

(** The bodies of the methods on the execution path, over the recursive
    call to [executeCommand]. *)
Variable executeCommand_rec : CommandRegistryImpl -> string -> list Value -> Execution.

(** [executeSafeCommand(...args)], lines 178-184. *)
Definition executeSafeCommand_body (r : CommandRegistryImpl) (args : list Value) : Execution :=
  match getSafeCommand (commandsConverter r) args with
  | Some command =>
      match truthy (cmd_command command) with
      | Some id => executeCommand_rec r id (default [] (cmd_arguments command))
      | None => Some (Rejected (VString "command NOT FOUND"), r)
      end
  | None => Some (Rejected (VString "command NOT FOUND"), r)
  end.

(** Calling a stored handler: [handler.apply(thisArg, args)]. *)
Definition apply_handler (h : BoundHandler) (r : CommandRegistryImpl) (args : list Value)
  : Execution :=
  match bh_handler h with
  | HFunction f => Some (f (bh_thisArg h) args, r)
  | HExecuteSafeCommand => executeSafeCommand_body r args
  end.

(** [executeLocalCommand(id, ...args)], lines 112-119. *)
Definition executeLocalCommand_body (r : CommandRegistryImpl) (id : string) (args : list Value)
  : Execution :=
  match handlers r !! id with
  | Some handler =>
      apply_handler handler r (map (processArgument (argumentProcessors r)) args)
  | None => Some (Rejected (VError ("Command " +:+ id +:+ " doesn't exist")), r)
  end.

End Bodies.

(** [executeCommand(id, ...args)], lines 97-104.  [fuel] bounds how deep
    calls to [executeCommand] may nest through the trampoline. *)
Fixpoint executeCommand (fuel : nat) (r : CommandRegistryImpl) (id : string)
    (args : list Value) : Execution :=
  match fuel with
  | O => None
  | S fuel' =>
      if decide (is_Some (handlers r !! id)) then
        executeLocalCommand_body (executeCommand fuel') r id args
      else
        let '(mappedId, mappedArgs) := KnownCommands_map id args in
        Some (main_executeCommand mappedId mappedArgs,
              call (PExecuteCommand mappedId mappedArgs) r)
  end.

Definition executeLocalCommand (fuel : nat) := executeLocalCommand_body (executeCommand fuel).

Definition executeSafeCommand (fuel : nat) := executeSafeCommand_body (executeCommand fuel).

(** [$executeCommand(id, ...args)], lines 88-94: the entry point for
    invocations that come from the remote side. *)
Definition dollar_executeCommand (fuel : nat) (r : CommandRegistryImpl) (id : string)
    (args : list Value) : Execution :=
  if decide (is_Some (handlers r !! id)) then
    executeLocalCommand fuel r id args
  else
    Some (Rejected (VError ("Command: " +:+ id +:+ " does not exist.")), r).

End Execution.

(** ** CommandsConverter *)

Definition set_isSafeCommandRegistered (b : bool) (conv : CommandsConverter) :=
  {| safeCommandId := safeCommandId conv; commandsMap := commandsMap conv;
     handle := handle conv; isSafeCommandRegistered := b |}.

(** Lines 167-168: [const id = this.handle++; this.commandsMap.set(id, command)].
    The counter is a JS number, exact on the integers below 2^53; the model
    counts in [Z]. *)
Definition allocate (command : Command) (conv : CommandsConverter) :=
  {| safeCommandId := safeCommandId conv;
     commandsMap := <[handle conv := command]> (commandsMap conv);
     handle := handle conv + 1;
     isSafeCommandRegistered := isSafeCommandRegistered conv |}.

(** The test of line 166:
    [command.command && command.arguments && command.arguments.length > 0]. *)
Definition carriesArguments (command : Command) : bool :=
  match truthy (cmd_command command), cmd_arguments command with
  | Some _, Some (_ :: _) => true
  | _, _ => false
  end.

(** [toSafeCommand(command, disposables)], lines 157-175.  The collection is
    the caller's; the model hands it back next to the result. *)
Definition toSafeCommand (command : Command) (disposables : DisposableCollection)
  : M (Command * DisposableCollection) :=
  r ← get;
  (if isSafeCommandRegistered (commandsConverter r) then mret tt
   else
     registerCommand {| desc_id := safeCommandId (commandsConverter r); desc_label := None |}
                     (Some HExecuteSafeCommand) converterRef;;
     modify (fun r => set_commandsConverter
                (set_isSafeCommandRegistered true (commandsConverter r)) r));;
  if carriesArguments command then
    r ← get;
    let id := handle (commandsConverter r) in
    modify (fun r => set_commandsConverter (allocate command (commandsConverter r)) r);;
    mret ({| cmd_command := Some (safeCommandId (commandsConverter r));
             cmd_label := cmd_label command;
             cmd_arguments := Some [VNumber id] |},
          push (DeleteSafeCommand id) disposables)
  else
    mret (command, disposables).

(** ** Vocabulary of the properties *)

(** The registry once [registerCommand] has recorded the identifier and told
    the remote side, before it looks at the handler. *)
Definition recorded (command : CommandDescription) (r : CommandRegistryImpl) :=
  call (PRegisterCommand command) (set_commands (commands r ∪ {[desc_id command]}) r).

(** The handler entry that [registerHandler] stores. *)
Definition bound (handler : Handler) (thisArg : Value) : BoundHandler :=
  {| bh_handler := handler; bh_thisArg := thisArg |}.

(** The lazy registration of the trampoline (lines 158-161) can go through:
    it was done before, or its identifier is neither a registered command nor
    the key of a handler. *)
Definition safe_ready (r : CommandRegistryImpl) : Prop :=
  isSafeCommandRegistered (commandsConverter r) = true \/
  ((safeCommandId (commandsConverter r) ∉ commands r) /\
   handlers r !! safeCommandId (commandsConverter r) = None).

(** The registry after the check of lines 158-161 has passed. *)
Definition withSafeCommand (r : CommandRegistryImpl) : CommandRegistryImpl :=
  if isSafeCommandRegistered (commandsConverter r) then r
  else
    let sid := safeCommandId (commandsConverter r) in
    let r1 := recorded {| desc_id := sid; desc_label := None |} r in
    let r2 := set_handlers (<[sid := bound HExecuteSafeCommand converterRef]> (handlers r1))
                (call (PRegisterHandler sid) r1) in
    set_commandsConverter (set_isSafeCommandRegistered true (commandsConverter r2)) r2.

(** The command that replaces a converted one. *)
Definition safeCommand (conv : CommandsConverter) (command : Command) (id : Z) : Command :=
  {| cmd_command := Some (safeCommandId conv);
     cmd_label := cmd_label command;
     cmd_arguments := Some [VNumber id] |}.

(** Every handle in use was issued: the counter started at zero and the
    handle lies below it. *)
Definition handles_below (conv : CommandsConverter) : Prop :=
  0 <= handle conv /\
  forall k, is_Some (commandsMap conv !! k) -> 0 <= k < handle conv.

(** Releasing [d] runs the closure that deletes handle [h]. *)
Fixpoint releases (h : Z) (d : Disposable) : bool :=
  match d with
  | DeleteSafeCommand id => bool_decide (id = h)
  | DisposableFrom toDispose => existsb (releases h) toDispose
  | _ => false
  end.

(** ** Sample registries *)

(** A plugin function that resolves to its first argument. *)
Definition firstArgument : Handler :=
  HFunction (fun _ args => Resolved (default VUndefined (head args))).

(** A plugin function that resolves to the sum of its numeric arguments. *)
Definition sumArguments : Handler :=
  HFunction (fun _ args =>
    Resolved (VNumber (foldr (fun v acc => match v with VNumber n => n + acc | _ => acc end) 0 args))).

(** An argument processor that adds one to a number. *)
Definition addOne : ArgumentProcessor :=
  fun v => match v with VNumber n => VNumber (n + 1) | other => other end.

(** The registry a completion leaves behind. *)
Definition registry_of {A} (c : Completion A) : CommandRegistryImpl :=
  match c with
  | Returned _ r => r
  | Thrown _ r => r
  end.

(** A fresh registry. *)
Definition registry0 : CommandRegistryImpl := new_CommandRegistryImpl "0".

(** [registerHandler('x', firstArgument)] on a fresh registry. *)
Definition registry_handler_x : CommandRegistryImpl :=
  registry_of (registerHandler "x" firstArgument VUndefined registry0).

(** Two processors that add one, then a summing handler for ['x']. *)
Definition registry_processors : CommandRegistryImpl :=
  registry_of (registerHandler "x" sumArguments VUndefined
                 (registerArgumentProcessor addOne (registerArgumentProcessor addOne registry0))).

(** A remote side without known-command translations that rejects
    everything it is asked to execute. *)
Definition identity_map (id : string) (args : list Value) : string * list Value := (id, args).
Definition rejecting_main (id : string) (args : list Value) : Outcome := Rejected VUndefined.

(** A command without the [command] property that carries an argument. *)
Definition command_without_id : Command :=
  {| cmd_command := None; cmd_label := Some "bare"; cmd_arguments := Some [VNumber 7] |}.

(** A command with an identifier and two arguments. *)
Definition command_xy : Command :=
  {| cmd_command := Some "x"; cmd_label := Some "sum";
     cmd_arguments := Some [VNumber 1; VNumber 2] |}.

(** Another command with an identifier and an argument. *)
Definition command_ya : Command :=
  {| cmd_command := Some "y"; cmd_label := None; cmd_arguments := Some [VString "a"] |}.

(** A fresh registry after [toSafeCommand(command_xy, [])]. *)
Definition registry_converted : CommandRegistryImpl :=
  registry_of (toSafeCommand command_xy [] registry0).

(** A fresh registry in which a plugin has registered the identifier that
    the converter is going to use for its trampoline. *)
Definition registry_taken : CommandRegistryImpl :=
  registry_of (registerCommand {| desc_id := "theia_safe_cmd_0"; desc_label := None |}
                 None VUndefined registry0).

(** ** The remote command list *)



(** Once the converter has registered its trampoline, the handler of the
    trampoline identifier is the converter's [executeSafeCommand]. *)
Definition trampoline_bound (r : CommandRegistryImpl) : Prop :=
  isSafeCommandRegistered (commandsConverter r) = true ->
  handlers r !! safeCommandId (commandsConverter r) = Some (bound HExecuteSafeCommand converterRef).

(** ** The shell process of the integrated terminal *)

(** The second source unit: the options with which [ShellProcess] starts
    its terminal process.  What the code reads from its surroundings is
    gathered in [Host]; [process.env] maps names to strings. *)
Module ShellProcess.

(** A JS number, as far as [||] tells numbers apart: zero (of either sign)
    and [NaN] are falsy, every other number is truthy.  A number with a
    fraction behaves as a non-zero integer does and has no constructor of its
    own. *)
Inductive number :=
| Num (n : Z)
| NaN
| Infinity (negative : bool).

(** [interface ShellProcessOptions].  A value of [env] may be [null]. *)
Record ShellProcessOptions := {
  shell : option string;
  args : option (list string);
  rootURI : option string;
  cols : option number;
  rows : option number;
  env : option (gmap string (option string))
}.

Record Host := {
  process_env : gmap string string;
  isWindows : bool;
  isOSX : bool;
  homedir : string
}.

(** The argument of [super(...)] in the constructor.  [tp_command] is
    optional because [process.env.SHELL!] can be [undefined]. *)
Record TerminalProcessOptions := {
  tp_command : option string;
  tp_args : list string;
  tp_name : string;
  tp_cols : number;
  tp_rows : number;
  tp_cwd : string;
  tp_env : gmap string string
}.

(** [v || ''] on an optional string. *)
Definition orEmpty (v : option string) : string :=
  match truthy v with
  | Some s => s
  | None => EmptyString
  end.

(** [n || d] on an optional number: [undefined], zero and [NaN] are
    falsy. *)
Definition orDefault (n : option number) (d : Z) : number :=
  match n with
  | Some (Num v) => if decide (v = 0) then Num d else Num v
  | Some NaN => Num d
  | Some (Infinity negative) => Infinity negative
  | None => Num d
  end.

(** [obj[key] = value] on the plain object of line 128.  Every key becomes
    an own property but [__proto__]: its assignment runs the setter that the
    object inherits, and that setter ignores a string. *)
Definition assign (key value : string) (obj : gmap string string) : gmap string string :=
  if decide (key = "__proto__") then obj else <[key := value]> obj.

(** [setUpEnvVariables(customEnv?)], lines 127-142.  Both loops assign
    one property per key of the object they walk; the result holds the own
    properties of [processEnv]. *)
Definition setUpEnvVariables (prEnv : gmap string string)
    (customEnv : option (gmap string (option string))) : gmap string string :=
  let processEnv :=
    map_fold (fun key value processEnv => assign key (orEmpty (Some value)) processEnv) ∅ prEnv in
  match customEnv with
  | Some custom =>
      map_fold (fun envName value processEnv => assign envName (orEmpty value) processEnv)
        processEnv custom
  | None => processEnv
  end.

Section Collaborators.

(** Taken as parameters, since they are not part of the sources:
    [FileUri.fsPath(new URI(rootURI))] and [parseArgs]. *)
Variable fsPath : string -> string.
Variable parseArgs : string -> list string.

(** [getRootPath(rootURI?)], lines 144-151. *)
Definition getRootPath (host : Host) (rootURI : option string) : string :=
  match truthy rootURI with
  | Some uri => fsPath uri
  | None => homedir host
  end.

(** [getShellExecutablePath()], lines 178-188. *)
Definition getShellExecutablePath (host : Host) : option string :=
  match truthy (process_env host !! "THEIA_SHELL") with
  | Some shell => Some shell
  | None => if isWindows host then Some "cmd.exe" else process_env host !! "SHELL"
  end.

(** [getShellExecutableArgs()], lines 190-201. *)
Definition getShellExecutableArgs (host : Host) : list string :=
  match truthy (process_env host !! "THEIA_SHELL_ARGS") with
  | Some args => parseArgs args
  | None => if isOSX host then ["-l"] else []
  end.

Definition defaultCols : Z := 80.
Definition defaultRows : Z := 24.

(** The options the constructor passes on, lines 165-174.  An array is
    truthy also when it is empty, so [options.args || ...] falls back only
    when [args] is absent. *)
Definition terminalProcessOptions (host : Host) (options : ShellProcessOptions)
  : TerminalProcessOptions :=
  {| tp_command := match truthy (shell options) with
                   | Some s => Some s
                   | None => getShellExecutablePath host
                   end;
     tp_args := match args options with
                | Some a => a
                | None => getShellExecutableArgs host
                end;
     tp_name := "xterm-color";
     tp_cols := orDefault (cols options) defaultCols;
     tp_rows := orDefault (rows options) defaultRows;
     tp_cwd := getRootPath host (rootURI options);
     tp_env := setUpEnvVariables (process_env host) (env options) |}.

End Collaborators.

End ShellProcess.

(** * Properties *)

(** ** Running the monad *)

Ltac unfold_M :=
  unfold mbind, M_bind, mret, M_ret, throw, get, modify in *.

Lemma registerHandler_attached commandId handler thisArg r :
  is_Some (handlers r !! commandId) ->
  registerHandler commandId handler thisArg r =
    Thrown (VError ("Command " +:+ dquote +:+ commandId +:+ dquote +:+ " already has handler")) r.
Proof.
  intros Hsome. unfold registerHandler. unfold_M.
  destruct (decide (is_Some (handlers r !! commandId))) as [_ | Hno]; [reflexivity | contradiction].
Qed.

Lemma registerHandler_free commandId handler thisArg r :
  handlers r !! commandId = None ->
  registerHandler commandId handler thisArg r =
    Returned (UnregisterHandler commandId)
      (set_handlers (<[commandId := bound handler thisArg]> (handlers r))
         (call (PRegisterHandler commandId) r)).
Proof.
  intros Hnone. unfold registerHandler. unfold_M.
  destruct (decide (is_Some (handlers r !! commandId))) as [Hsome | _]; [| reflexivity].
  rewrite Hnone in Hsome. destruct Hsome as [? ?]. discriminate.
Qed.

Lemma registerCommand_duplicate command handler thisArg r :
  desc_id command ∈ commands r ->
  registerCommand command handler thisArg r =
    Thrown (VError ("Command " +:+ desc_id command +:+ " already exist")) r.
Proof.
  intros Hin. unfold registerCommand. unfold_M.
  destruct (decide (desc_id command ∈ commands r)); [reflexivity | contradiction].
Qed.

Lemma registerCommand_fresh command handler thisArg r :
  desc_id command ∉ commands r ->
  registerCommand command handler thisArg r =
    match handler with
    | Some h =>
        match registerHandler (desc_id command) h thisArg (recorded command r) with
        | Returned d r' =>
            Returned (DisposableFrom [d; UnregisterCommand (desc_id command)]) r'
        | Thrown e r' => Thrown e r'
        end
    | None => Returned (DisposableFrom [UnregisterCommand (desc_id command)]) (recorded command r)
    end.
Proof.
  intros Hfresh. unfold registerCommand. unfold_M.
  destruct (decide (desc_id command ∈ commands r)); [contradiction |].
  destruct handler as [h |]; [| reflexivity].
  fold (recorded command r).
  destruct (registerHandler (desc_id command) h thisArg (recorded command r)); reflexivity.
Qed.

(** ** Releasing *)

Lemma Disposable_nested_ind (P : Disposable -> Prop) :
  (forall id, P (UnregisterCommand id)) ->
  (forall commandId, P (UnregisterHandler commandId)) ->
  (forall id, P (DeleteSafeCommand id)) ->
  (forall toDispose, Forall P toDispose -> P (DisposableFrom toDispose)) ->
  forall d, P d.
Proof.
  intros Hc Hh Hs Hf. fix IH 1. intros [id | commandId | id | toDispose].
  - apply Hc.
  - apply Hh.
  - apply Hs.
  - apply Hf. induction toDispose as [| d ds IHds]; constructor; [apply IH | exact IHds].
Qed.

(** Releasing touches the converter only in its map. *)
Lemma dispose_converter d r :
  safeCommandId (commandsConverter (dispose d r)) = safeCommandId (commandsConverter r) /\
  handle (commandsConverter (dispose d r)) = handle (commandsConverter r) /\
  isSafeCommandRegistered (commandsConverter (dispose d r)) =
    isSafeCommandRegistered (commandsConverter r).
Proof.
  revert r. induction d as [id | commandId | id | ds IH] using Disposable_nested_ind;
    intros r; try (simpl; auto; fail).
  simpl. revert r. induction IH as [| d ds Hd _ IHds]; intros r; simpl; [auto |].
  destruct (IHds (dispose d r)) as (-> & -> & ->). apply Hd.
Qed.

(** What releasing does to the map of handles: exactly the handles whose
    closure is run disappear. *)
Lemma dispose_commandsMap d r k :
  commandsMap (commandsConverter (dispose d r)) !! k =
    if releases k d then None else commandsMap (commandsConverter r) !! k.
Proof.
  revert r. induction d as [id | commandId | id | ds IH] using Disposable_nested_ind;
    intros r; try reflexivity.
  - simpl. case_bool_decide as Hk.
    + subst. apply lookup_delete_eq.
    + by apply lookup_delete_ne.
  - simpl. revert r. induction IH as [| d ds Hd _ IHds]; intros r; simpl; [reflexivity |].
    rewrite IHds, Hd. destruct (releases k d); simpl; [| reflexivity].
    by destruct (existsb (releases k) ds).
Qed.

Lemma dispose_collection_converter disposables r :
  safeCommandId (commandsConverter (dispose_collection disposables r)) =
    safeCommandId (commandsConverter r) /\
  handle (commandsConverter (dispose_collection disposables r)) = handle (commandsConverter r).
Proof.
  induction disposables as [| d ds IH]; simpl; [auto |].
  destruct (dispose_converter d (dispose_collection ds r)) as (-> & -> & _). exact IH.
Qed.

Lemma dispose_collection_commandsMap disposables r k :
  commandsMap (commandsConverter (dispose_collection disposables r)) !! k =
    if existsb (releases k) disposables then None else commandsMap (commandsConverter r) !! k.
Proof.
  induction disposables as [| d ds IH]; simpl; [reflexivity |].
  rewrite dispose_commandsMap. fold (dispose_collection ds r). rewrite IH.
  destruct (releases k d); simpl; [reflexivity |]. reflexivity.
Qed.

(** ** The converter, step by step *)

Lemma withSafeCommand_converter r :
  safeCommandId (commandsConverter (withSafeCommand r)) = safeCommandId (commandsConverter r) /\
  commandsMap (commandsConverter (withSafeCommand r)) = commandsMap (commandsConverter r) /\
  handle (commandsConverter (withSafeCommand r)) = handle (commandsConverter r) /\
  isSafeCommandRegistered (commandsConverter (withSafeCommand r)) = true.
Proof.
  unfold withSafeCommand.
  destruct (isSafeCommandRegistered (commandsConverter r)) eqn:Hreg; simpl; auto.
Qed.

(** When the trampoline can be registered, [toSafeCommand] returns, and this
    is what it returns and writes. *)
Lemma toSafeCommand_ready command disposables r :
  safe_ready r ->
  toSafeCommand command disposables r =
    let r1 := withSafeCommand r in
    let id := handle (commandsConverter r1) in
    if carriesArguments command then
      Returned (safeCommand (commandsConverter r1) command id,
                push (DeleteSafeCommand id) disposables)
               (set_commandsConverter (allocate command (commandsConverter r1)) r1)
    else Returned (command, disposables) r1.
Proof.
  intros Hready. unfold toSafeCommand, withSafeCommand. unfold_M.
  destruct (isSafeCommandRegistered (commandsConverter r)) eqn:Hreg.
  - destruct (carriesArguments command); reflexivity.
  - destruct Hready as [Hyes | [Hfresh Hnone]]; [congruence |].
    rewrite registerCommand_fresh by exact Hfresh.
    rewrite registerHandler_free by exact Hnone.
    destruct (carriesArguments command); reflexivity.
Qed.

(** Otherwise the registration of the trampoline throws, and so does
    [toSafeCommand]. *)
Lemma toSafeCommand_not_ready command disposables r :
  ~ safe_ready r ->
  exists e r', toSafeCommand command disposables r = Thrown e r'.
Proof.
  intros Hnot. unfold toSafeCommand. unfold_M.
  destruct (isSafeCommandRegistered (commandsConverter r)) eqn:Hreg.
  - exfalso. apply Hnot. by left.
  - destruct (decide (safeCommandId (commandsConverter r) ∈ commands r)) as [Hin | Hfresh].
    + rewrite registerCommand_duplicate by exact Hin. eauto.
    + rewrite registerCommand_fresh by exact Hfresh.
      destruct (handlers r !! safeCommandId (commandsConverter r)) eqn:Hh.
      * rewrite registerHandler_attached by (simpl; rewrite Hh; eauto). eauto.
      * exfalso. apply Hnot. right. split; assumption.
Qed.

Lemma toSafeCommand_returned command disposables r x r' :
  toSafeCommand command disposables r = Returned x r' -> safe_ready r.
Proof.
  intros Hret.
  destruct (isSafeCommandRegistered (commandsConverter r)) eqn:Hreg; [by left |].
  destruct (decide (safeCommandId (commandsConverter r) ∈ commands r)) as [Hin | Hfresh].
  - destruct (toSafeCommand_not_ready command disposables r) as (e & r'' & Hthrown);
      [| congruence].
    intros [Hyes | [Hfresh _]]; [congruence | contradiction].
  - destruct (handlers r !! safeCommandId (commandsConverter r)) eqn:Hh.
    + destruct (toSafeCommand_not_ready command disposables r) as (e & r'' & Hthrown);
        [| congruence].
      intros [Hyes | [_ Hnone]]; congruence.
    + right. split; assumption.
Qed.

Lemma carriesArguments_true command :
  carriesArguments command = true <->
  exists id a args,
    truthy (cmd_command command) = Some id /\ cmd_arguments command = Some (a :: args).
Proof.
  unfold carriesArguments. split.
  - destruct (truthy (cmd_command command)) as [id |]; [| discriminate].
    destruct (cmd_arguments command) as [[| a args] |]; try discriminate. eauto.
  - intros (id & a & args & -> & ->). reflexivity.
Qed.

Lemma carriesArguments_false command :
  carriesArguments command = false <->
  truthy (cmd_command command) = None \/
  cmd_arguments command = None \/ cmd_arguments command = Some [].
Proof.
  unfold carriesArguments. split.
  - destruct (truthy (cmd_command command)) as [id |]; [| auto].
    destruct (cmd_arguments command) as [[| a args] |]; auto. discriminate.
  - intros [-> | [-> | ->]]; [reflexivity | |];
      destruct (truthy (cmd_command command)); reflexivity.
Qed.

(** ** The execution path *)

Section ExecutionFacts.

Variable KnownCommands_map : string -> list Value -> string * list Value.
Variable main_executeCommand : string -> list Value -> Outcome.

Local Abbreviation execute := (executeCommand KnownCommands_map main_executeCommand).
Local Abbreviation forwarded id args :=
  (PExecuteCommand (KnownCommands_map id args).1 (KnownCommands_map id args).2).

Lemma executeCommand_local fuel r id args h :
  handlers r !! id = Some h ->
  execute (S fuel) r id args =
    apply_handler (execute fuel) h r (map (processArgument (argumentProcessors r)) args).
Proof.
  intros Hh. simpl. unfold executeLocalCommand_body. rewrite Hh.
  destruct (decide (is_Some (Some h))) as [_ | Hno]; [reflexivity |].
  exfalso. apply Hno. eauto.
Qed.

Lemma executeCommand_forward fuel r id args :
  handlers r !! id = None ->
  execute (S fuel) r id args =
    Some (main_executeCommand (KnownCommands_map id args).1 (KnownCommands_map id args).2,
          call (forwarded id args) r).
Proof.
  intros Hh. simpl. rewrite Hh.
  destruct (decide (is_Some (@None BoundHandler))) as [[? Hsome] | _]; [discriminate |].
  destruct (KnownCommands_map id args); reflexivity.
Qed.

(** An execution sends at most one call to the proxy: the forward of a
    command that has no local handler. *)
Lemma executeCommand_registry fuel r id args o r' :
  execute fuel r id args = Some (o, r') ->
  r' = r \/
  exists id' args', handlers r !! id' = None /\ r' = call (forwarded id' args') r.
Proof.
  revert id args. induction fuel as [| fuel IH]; intros id args Hrun; [discriminate |].
  destruct (handlers r !! id) as [h |] eqn:Hh.
  - rewrite (executeCommand_local _ _ _ _ h Hh) in Hrun.
    unfold apply_handler, executeSafeCommand_body in Hrun.
    destruct (bh_handler h) as [f |].
    + left. congruence.
    + destruct (getSafeCommand _ _) as [command |]; [| left; congruence].
      destruct (truthy (cmd_command command)) as [id' |]; [| left; congruence].
      exact (IH _ _ Hrun).
  - rewrite (executeCommand_forward _ _ _ _ Hh) in Hrun.
    right. exists id, args. split; [exact Hh | congruence].
Qed.

(** The trampoline on a handle that is in the map. *)
Lemma executeSafeCommand_found fuel r h rest command id :
  commandsMap (commandsConverter r) !! h = Some command ->
  truthy (cmd_command command) = Some id ->
  executeSafeCommand KnownCommands_map main_executeCommand fuel r (VNumber h :: rest) =
    execute fuel r id (default [] (cmd_arguments command)).
Proof.
  intros Hmap Hid. unfold executeSafeCommand, executeSafeCommand_body, getSafeCommand.
  simpl. rewrite Hmap, Hid. reflexivity.
Qed.

(** The trampoline on anything else. *)
Lemma executeSafeCommand_not_found fuel r args :
  getSafeCommand (commandsConverter r) args = None ->
  executeSafeCommand KnownCommands_map main_executeCommand fuel r args =
    Some (Rejected (VString "command NOT FOUND"), r).
Proof.
  intros Hnone. unfold executeSafeCommand, executeSafeCommand_body. by rewrite Hnone.
Qed.

Lemma dollar_executeCommand_local fuel r id args h :
  handlers r !! id = Some h ->
  dollar_executeCommand KnownCommands_map main_executeCommand fuel r id args =
    apply_handler (execute fuel) h r (map (processArgument (argumentProcessors r)) args).
Proof.
  intros Hh. unfold dollar_executeCommand, executeLocalCommand, executeLocalCommand_body.
  rewrite Hh. destruct (decide (is_Some (Some h))) as [_ | Hno]; [reflexivity |].
  exfalso. apply Hno. eauto.
Qed.

Lemma dollar_executeCommand_none fuel r id args :
  handlers r !! id = None ->
  dollar_executeCommand KnownCommands_map main_executeCommand fuel r id args =
    Some (Rejected (VError ("Command: " +:+ id +:+ " does not exist.")), r).
Proof.
  intros Hh. unfold dollar_executeCommand. rewrite Hh.
  destruct (decide (is_Some (@None BoundHandler))) as [[? Hsome] | _];
    [discriminate | reflexivity].
Qed.

(** C4. An invocation that arrives from the remote side through
    [$executeCommand] runs the local handler of the identifier when there is
    one: a plugin function is applied, with its receiver, to the processed
    arguments and what it returns is the outcome; the trampoline is run on the
    processed arguments.  When there is no handler the invocation is rejected
    and the registry, hence the proxy log, is as before: nothing is sent to
    the remote side, whatever the known-command table holds. *)
Theorem dollar_executeCommand_local_only fuel r id args :
  (forall h f,
     handlers r !! id = Some h -> bh_handler h = HFunction f ->
     dollar_executeCommand KnownCommands_map main_executeCommand fuel r id args =
       Some (f (bh_thisArg h) (map (processArgument (argumentProcessors r)) args), r))
  /\ (forall h,
        handlers r !! id = Some h -> bh_handler h = HExecuteSafeCommand ->
        dollar_executeCommand KnownCommands_map main_executeCommand fuel r id args =
          executeSafeCommand KnownCommands_map main_executeCommand fuel r
            (map (processArgument (argumentProcessors r)) args))
  /\ (handlers r !! id = None ->
      dollar_executeCommand KnownCommands_map main_executeCommand fuel r id args =
        Some (Rejected (VError ("Command: " +:+ id +:+ " does not exist.")), r)).
Proof.
  split; [| split].
  - intros h f Hh Hf. rewrite (dollar_executeCommand_local _ _ _ _ h Hh).
    unfold apply_handler. by rewrite Hf.
  - intros h Hh Hsafe. rewrite (dollar_executeCommand_local _ _ _ _ h Hh).
    unfold apply_handler. by rewrite Hsafe.
  - apply dollar_executeCommand_none.
Qed.


(** C6. [registerHandler] throws, and leaves the registry as it was, when the
    identifier already has a handler.  Otherwise it stores the handler bound
    to the receiver, tells the remote side and returns a disposable; the
    stored handler is what an execution of the identifier applies, with that
    receiver, and releasing the disposable detaches the handler and tells
    the remote side. *)
Theorem registerHandler_spec commandId handler thisArg r :
  (is_Some (handlers r !! commandId) ->
     registerHandler commandId handler thisArg r =
       Thrown (VError ("Command " +:+ dquote +:+ commandId +:+ dquote +:+ " already has handler")) r)
  /\ (handlers r !! commandId = None ->
      exists d r',
        registerHandler commandId handler thisArg r = Returned d r'
        /\ handlers r' = <[commandId := bound handler thisArg]> (handlers r)
        /\ proxy r' = proxy r ++ [PRegisterHandler commandId]
        /\ commands r' = commands r
        /\ (forall f fuel args, handler = HFunction f ->
              execute (S fuel) r' commandId args =
                Some (f thisArg (map (processArgument (argumentProcessors r')) args), r'))
        /\ handlers (dispose d r') !! commandId = None
        /\ (forall other, other <> commandId ->
              handlers (dispose d r') !! other = handlers r !! other)
        /\ proxy (dispose d r') = proxy r' ++ [PUnregisterHandler commandId]).
Proof.
  split; [apply registerHandler_attached |].
  intros Hnone. eexists _, _. split; [by apply registerHandler_free |].
  repeat split.
  - intros f fuel args ->.
    erewrite executeCommand_local by (simpl; apply lookup_insert_eq). reflexivity.
  - simpl. apply lookup_delete_eq.
  - intros other Hother. simpl. rewrite lookup_delete_ne by congruence.
    by rewrite lookup_insert_ne by congruence.
Qed.

(** C5, as the code has it.  [registerCommand] throws, and leaves the
    registry as it was, when the identifier is already registered.  For a fresh
    identifier, with no handler supplied or none attached to the identifier
    yet, it records the identifier, tells the remote side, attaches the
    supplied handler and returns a disposable.  For a fresh identifier with a
    handler supplied while one is attached already, it throws the error of
    [registerHandler]. *)
Theorem registerCommand_spec command handler thisArg r :
  (desc_id command ∈ commands r ->
     registerCommand command handler thisArg r =
       Thrown (VError ("Command " +:+ desc_id command +:+ " already exist")) r)
  /\ (desc_id command ∉ commands r ->
      handler = None \/ handlers r !! desc_id command = None ->
      exists d r',
        registerCommand command handler thisArg r = Returned d r'
        /\ commands r' = commands r ∪ {[desc_id command]}
        /\ proxy r' = proxy r ++ PRegisterCommand command ::
                        match handler with
                        | Some _ => [PRegisterHandler (desc_id command)]
                        | None => []
                        end
        /\ handlers r' = match handler with
                         | Some h => <[desc_id command := bound h thisArg]> (handlers r)
                         | None => handlers r
                         end)
  /\ (desc_id command ∉ commands r ->
      forall h, handler = Some h -> is_Some (handlers r !! desc_id command) ->
      exists r',
        registerCommand command handler thisArg r =
          Thrown (VError ("Command " +:+ dquote +:+ desc_id command +:+ dquote
                            +:+ " already has handler")) r').
Proof.
  split; [apply registerCommand_duplicate |]. split.
  - intros Hfresh Hfree. rewrite registerCommand_fresh by exact Hfresh.
    destruct handler as [h |].
    + destruct Hfree as [? | Hnone]; [discriminate |].
      rewrite registerHandler_free by exact Hnone.
      eexists _, _. split; [reflexivity |]. simpl.
      split; [reflexivity |]. split; [| reflexivity].
      by rewrite <- app_assoc.
    + eexists _, _. split; [reflexivity |]. simpl. auto.
  - intros Hfresh h -> Hsome. rewrite registerCommand_fresh by exact Hfresh.
    rewrite registerHandler_attached by exact Hsome. eauto.
Qed.

(** C8, as the code has it.  [registerCommand] on a fresh identifier
    returns a disposable.  Releasing it, on whatever registry the operations
    since have left, removes the identifier from the set of commands, removes
    the handler of the identifier when the registration attached one and
    leaves the handlers alone when it did not, and tells the remote side.  A
    later [$executeCommand] of the identifier is rejected as not found when
    the registration attached a handler, or when no handler is attached to
    the identifier at the time of the release; a handler attached separately
    survives the release of a registration without handler and is still
    run. *)
Theorem registerCommand_dispose command handler thisArg r :
  desc_id command ∉ commands r ->
  handler = None \/ handlers r !! desc_id command = None ->
  exists d r',
    registerCommand command handler thisArg r = Returned d r'
    /\ forall r2,
         (desc_id command ∉ commands (dispose d r2))
         /\ (is_Some handler -> handlers (dispose d r2) !! desc_id command = None)
         /\ (handler = None -> handlers (dispose d r2) = handlers r2)
         /\ proxy (dispose d r2) =
              proxy r2 ++ match handler with
                          | Some _ => [PUnregisterHandler (desc_id command)]
                          | None => []
                          end ++ [PUnregisterCommand (desc_id command)]
         /\ (is_Some handler \/ handlers r2 !! desc_id command = None ->
             forall fuel args,
               dollar_executeCommand KnownCommands_map main_executeCommand fuel
                   (dispose d r2) (desc_id command) args =
                 Some (Rejected (VError ("Command: " +:+ desc_id command +:+ " does not exist.")),
                       dispose d r2))
         /\ (handler = None ->
             forall h f,
               handlers r2 !! desc_id command = Some h -> bh_handler h = HFunction f ->
               forall fuel args,
                 dollar_executeCommand KnownCommands_map main_executeCommand fuel
                     (dispose d r2) (desc_id command) args =
                   Some (f (bh_thisArg h)
                           (map (processArgument (argumentProcessors r2)) args),
                         dispose d r2)).
Proof.
  intros Hfresh Hfree. rewrite registerCommand_fresh by exact Hfresh.
  destruct handler as [h |].
  - destruct Hfree as [? | Hnone]; [discriminate |].
    rewrite registerHandler_free by exact Hnone.
    eexists _, _. split; [reflexivity |]. intros r2.
    assert (Hgone : handlers (dispose (DisposableFrom
                [UnregisterHandler (desc_id command); UnregisterCommand (desc_id command)]) r2)
              !! desc_id command = None) by (simpl; apply lookup_delete_eq).
    split; [simpl; intros [_ Hne]%elem_of_difference; apply Hne; by apply elem_of_singleton |].
    split; [intros _; exact Hgone |]. split; [discriminate |].
    split; [simpl; by rewrite <- !app_assoc |].
    split; [| discriminate].
    intros _ fuel args. apply dollar_executeCommand_none. exact Hgone.
  - eexists _, _. split; [reflexivity |]. intros r2.
    split; [simpl; intros [_ Hne]%elem_of_difference; apply Hne; by apply elem_of_singleton |].
    split; [intros [? ?]; discriminate |]. split; [reflexivity |].
    split; [reflexivity |]. split.
    + intros [[? ?] | Hnone] fuel args; [discriminate |].
      apply dollar_executeCommand_none. simpl. exact Hnone.
    + intros _ h f Hh Hf fuel args.
      rewrite (dollar_executeCommand_local _ _ _ _ h) by (simpl; exact Hh).
      unfold apply_handler. by rewrite Hf.
Qed.

(** ** The converter *)

Lemma toSafeCommand_converts command disposables r :
  safe_ready r ->
  carriesArguments command = true ->
  exists r',
    toSafeCommand command disposables r =
      Returned (safeCommand (commandsConverter r) command (handle (commandsConverter r)),
                disposables ++ [DeleteSafeCommand (handle (commandsConverter r))]) r'
    /\ commandsMap (commandsConverter r') =
         <[handle (commandsConverter r) := command]> (commandsMap (commandsConverter r))
    /\ handle (commandsConverter r') = handle (commandsConverter r) + 1
    /\ safeCommandId (commandsConverter r') = safeCommandId (commandsConverter r).
Proof.
  intros Hready Hcarries. rewrite toSafeCommand_ready by exact Hready.
  cbv zeta. rewrite Hcarries.
  destruct (withSafeCommand_converter r) as (Hsid & Hmap & Hhandle & _).
  eexists. split.
  - unfold safeCommand, push. rewrite Hsid, Hhandle. reflexivity.
  - simpl. rewrite Hsid, Hmap, Hhandle. auto.
Qed.

Lemma toSafeCommand_passes command disposables r :
  safe_ready r ->
  carriesArguments command = false ->
  exists r',
    toSafeCommand command disposables r = Returned (command, disposables) r'
    /\ commandsMap (commandsConverter r') = commandsMap (commandsConverter r)
    /\ handle (commandsConverter r') = handle (commandsConverter r).
Proof.
  intros Hready Hcarries. rewrite toSafeCommand_ready by exact Hready.
  cbv zeta. rewrite Hcarries.
  destruct (withSafeCommand_converter r) as (_ & Hmap & Hhandle & _).
  eexists. split; [reflexivity |]. auto.
Qed.

(** C1, as the code has it.  Provided the lazy registration of the trampoline
    goes through, [toSafeCommand] returns a copy of the command.  When the
    command has a non-empty [command] property and a non-empty argument list,
    the copy refers to the trampoline, its sole argument is the handle just
    allocated, the original command is stored under that handle and the
    release of the mapping is pushed onto the scope.  In every other case the
    copy is the command as it was, and nothing is allocated. *)
Theorem toSafeCommand_spec command disposables r :
  safe_ready r ->
  (forall id a args,
     truthy (cmd_command command) = Some id ->
     cmd_arguments command = Some (a :: args) ->
     exists r',
       toSafeCommand command disposables r =
         Returned ({| cmd_command := Some (safeCommandId (commandsConverter r));
                      cmd_label := cmd_label command;
                      cmd_arguments := Some [VNumber (handle (commandsConverter r))] |},
                   disposables ++ [DeleteSafeCommand (handle (commandsConverter r))]) r'
       /\ commandsMap (commandsConverter r') !! handle (commandsConverter r) = Some command
       /\ handle (commandsConverter r') = handle (commandsConverter r) + 1)
  /\ (truthy (cmd_command command) = None \/
      cmd_arguments command = None \/ cmd_arguments command = Some [] ->
      exists r',
        toSafeCommand command disposables r = Returned (command, disposables) r'
        /\ commandsMap (commandsConverter r') = commandsMap (commandsConverter r)
        /\ handle (commandsConverter r') = handle (commandsConverter r)).
Proof.
  intros Hready. split.
  - intros id a args Hid Hargs.
    destruct (toSafeCommand_converts command disposables r Hready) as (r' & Hret & Hmap & Hh & _).
    { apply carriesArguments_true. eauto. }
    exists r'. split; [exact Hret |]. split; [| exact Hh].
    rewrite Hmap. apply lookup_insert_eq.
  - intros Hnot. apply toSafeCommand_passes; [exact Hready |].
    by apply carriesArguments_false.
Qed.

(** C10. A command whose [command] property is absent or empty comes back
    as it was even when it carries arguments: no handle is allocated, the map
    of handles is as before and nothing is pushed onto the scope.  Whenever a
    conversion moves the counter, changes the map or pushes onto the scope,
    the command had both a [command] property and a non-empty argument
    list. *)
Theorem toSafeCommand_without_command command disposables r :
  (safe_ready r ->
   truthy (cmd_command command) = None ->
   exists r',
     toSafeCommand command disposables r = Returned (command, disposables) r'
     /\ handle (commandsConverter r') = handle (commandsConverter r)
     /\ commandsMap (commandsConverter r') = commandsMap (commandsConverter r))
  /\ (forall result disposables' r',
        toSafeCommand command disposables r = Returned (result, disposables') r' ->
        handle (commandsConverter r') <> handle (commandsConverter r) \/
        commandsMap (commandsConverter r') <> commandsMap (commandsConverter r) \/
        disposables' <> disposables \/ result <> command ->
        exists id a args,
          truthy (cmd_command command) = Some id /\ cmd_arguments command = Some (a :: args)).
Proof.
  split.
  - intros Hready Hfalsy.
    destruct (toSafeCommand_passes command disposables r Hready) as (r' & Hret & Hmap & Hh).
    { apply carriesArguments_false. by left. }
    exists r'. auto.
  - intros result disposables' r' Hret Hchanged.
    apply carriesArguments_true.
    destruct (carriesArguments command) eqn:Hcarries; [reflexivity | exfalso].
    pose proof (toSafeCommand_returned _ _ _ _ _ Hret) as Hready.
    destruct (toSafeCommand_passes command disposables r Hready Hcarries)
      as (r'' & Hret' & Hmap & Hh).
    rewrite Hret in Hret'. injection Hret' as -> -> ->.
    destruct Hchanged as [? | [? | [? | ?]]]; contradiction.
Qed.

(** C2. Round trip: a command with a [command] property and a non-empty
    argument list is converted (provided the trampoline can be registered),
    and the trampoline handler on the handle it was given does what
    [executeCommand] does on the original identifier and arguments: right
    after the conversion, and in every later registry that still maps the
    handle to the command.  Unless the original identifier is itself bound to
    the trampoline, the execution settles. *)
Theorem toSafeCommand_round_trip command disposables r id a args :
  safe_ready r ->
  truthy (cmd_command command) = Some id ->
  cmd_arguments command = Some (a :: args) ->
  exists h result disposables' r',
    toSafeCommand command disposables r = Returned (result, disposables') r'
    /\ cmd_command result = Some (safeCommandId (commandsConverter r'))
    /\ cmd_arguments result = Some [VNumber h]
    /\ (forall fuel,
          executeSafeCommand KnownCommands_map main_executeCommand fuel r' [VNumber h] =
            execute fuel r' id (a :: args))
    /\ (forall fuel r2,
          commandsMap (commandsConverter r2) !! h = Some command ->
          executeSafeCommand KnownCommands_map main_executeCommand fuel r2 [VNumber h] =
            execute fuel r2 id (a :: args))
    /\ (forall fuel,
          bh_handler <$> handlers r' !! id <> Some HExecuteSafeCommand ->
          is_Some (executeSafeCommand KnownCommands_map main_executeCommand (S fuel) r'
                     [VNumber h])).
Proof.
  intros Hready Hid Hargs.
  destruct (toSafeCommand_converts command disposables r Hready)
    as (r' & Hret & Hmap & Hh & Hsid).
  { apply carriesArguments_true. eauto. }
  assert (Hlater : forall fuel r2,
            commandsMap (commandsConverter r2) !! handle (commandsConverter r) = Some command ->
            executeSafeCommand KnownCommands_map main_executeCommand fuel r2
              [VNumber (handle (commandsConverter r))] = execute fuel r2 id (a :: args)).
  { intros fuel r2 Hr2. rewrite (executeSafeCommand_found _ _ _ _ command id Hr2 Hid).
    by rewrite Hargs. }
  assert (Hnow : commandsMap (commandsConverter r') !! handle (commandsConverter r) = Some command)
    by (rewrite Hmap; apply lookup_insert_eq).
  eexists _, _, _, r'. split; [exact Hret |].
  split; [simpl; by rewrite Hsid |]. split; [reflexivity |].
  split; [intros fuel; by apply Hlater |]. split; [exact Hlater |].
  intros fuel Hnot. rewrite (Hlater _ _ Hnow).
  destruct (handlers r' !! id) as [hd |] eqn:Hhd.
  - rewrite (executeCommand_local _ _ _ _ hd Hhd). unfold apply_handler.
    destruct (bh_handler hd) as [f |] eqn:Hf; [eauto |].
    exfalso. apply Hnot. simpl. by rewrite Hf.
  - rewrite (executeCommand_forward _ _ _ _ Hhd). eauto.
Qed.

(** C3. Once the scope of a conversion is disposed, the trampoline handler
    on the handle of that conversion is rejected with not-found; so it is on
    a number that was never issued as a handle, and on an argument that is
    not a number. *)
Theorem executeSafeCommand_released command disposables r :
  (safe_ready r ->
   carriesArguments command = true ->
   exists h result disposables' r',
     toSafeCommand command disposables r = Returned (result, disposables') r'
     /\ cmd_arguments result = Some [VNumber h]
     /\ commandsMap (commandsConverter r') !! h = Some command
     /\ forall fuel,
          executeSafeCommand KnownCommands_map main_executeCommand fuel
              (dispose_collection disposables' r') [VNumber h] =
            Some (Rejected (VString "command NOT FOUND"), dispose_collection disposables' r'))
  /\ (handles_below (commandsConverter r) ->
      forall h fuel,
        h < 0 \/ handle (commandsConverter r) <= h ->
        executeSafeCommand KnownCommands_map main_executeCommand fuel r [VNumber h] =
          Some (Rejected (VString "command NOT FOUND"), r))
  /\ (forall v rest fuel,
        (forall h, v <> VNumber h) ->
        executeSafeCommand KnownCommands_map main_executeCommand fuel r (v :: rest) =
          Some (Rejected (VString "command NOT FOUND"), r)).
Proof.
  split; [| split].
  - intros Hready Hcarries.
    destruct (toSafeCommand_converts command disposables r Hready Hcarries)
      as (r' & Hret & Hmap & _).
    eexists _, _, _, r'. split; [exact Hret |]. split; [reflexivity |].
    split; [rewrite Hmap; apply lookup_insert_eq |].
    intros fuel. apply executeSafeCommand_not_found.
    unfold getSafeCommand. simpl. rewrite dispose_collection_commandsMap.
    rewrite existsb_app. simpl. rewrite bool_decide_eq_true_2 by reflexivity.
    by rewrite orb_true_r.
  - intros [_ Hbelow] h fuel Hout. apply executeSafeCommand_not_found.
    unfold getSafeCommand. simpl.
    destruct (commandsMap (commandsConverter r) !! h) as [c |] eqn:Hc; [| reflexivity].
    specialize (Hbelow h ltac:(eauto)). lia.
  - intros v rest fuel Hv. apply executeSafeCommand_not_found.
    unfold getSafeCommand. simpl. destruct v; try reflexivity.
    exfalso. by apply (Hv n).
Qed.

Lemma executeCommand_converter fuel r id args o r' :
  execute fuel r id args = Some (o, r') -> commandsConverter r' = commandsConverter r.
Proof.
  intros Hrun.
  destruct (executeCommand_registry _ _ _ _ _ _ Hrun) as [-> | (id' & args' & _ & ->)];
    reflexivity.
Qed.

Lemma registerHandler_converter commandId handler thisArg r :
  commandsConverter (registry_of (registerHandler commandId handler thisArg r)) =
    commandsConverter r.
Proof.
  destruct (handlers r !! commandId) as [h |] eqn:Hh.
  - rewrite registerHandler_attached by eauto. reflexivity.
  - rewrite registerHandler_free by exact Hh. reflexivity.
Qed.

Lemma registerCommand_converter command handler thisArg r :
  commandsConverter (registry_of (registerCommand command handler thisArg r)) =
    commandsConverter r.
Proof.
  destruct (decide (desc_id command ∈ commands r)) as [Hin | Hfresh].
  - rewrite registerCommand_duplicate by exact Hin. reflexivity.
  - rewrite registerCommand_fresh by exact Hfresh.
    destruct handler as [h |]; [| reflexivity].
    pose proof (registerHandler_converter (desc_id command) h thisArg (recorded command r)) as Hc.
    destruct (registerHandler _ _ _ _); exact Hc.
Qed.

Lemma registerCommand_releases command handler thisArg r d r' k :
  registerCommand command handler thisArg r = Returned d r' -> releases k d = false.
Proof.
  destruct (decide (desc_id command ∈ commands r)) as [Hin | Hfresh].
  - rewrite registerCommand_duplicate by exact Hin. discriminate.
  - rewrite registerCommand_fresh by exact Hfresh.
    destruct handler as [h |]; [| intros [= <- _]; reflexivity].
    destruct (handlers r !! desc_id command) as [hd |] eqn:Hh.
    + rewrite registerHandler_attached by (simpl; rewrite Hh; eauto). discriminate.
    + rewrite registerHandler_free by exact Hh. intros [= <- _]. reflexivity.
Qed.

Lemma registerHandler_releases commandId handler thisArg r d r' k :
  registerHandler commandId handler thisArg r = Returned d r' -> releases k d = false.
Proof.
  destruct (handlers r !! commandId) as [h |] eqn:Hh.
  - rewrite registerHandler_attached by eauto. discriminate.
  - rewrite registerHandler_free by exact Hh. intros [= <- _]. reflexivity.
Qed.

Lemma dispose_handles_below d r :
  handles_below (commandsConverter r) -> handles_below (commandsConverter (dispose d r)).
Proof.
  intros [Hpos Hbelow]. destruct (dispose_converter d r) as (_ & Hh & _).
  split; rewrite Hh; [exact Hpos |].
  intros k. rewrite dispose_commandsMap.
  destruct (releases k d); [intros [? ?]; discriminate | apply Hbelow].
Qed.

(** What a conversion does to the converter, whether it returns or throws:
    the map and the counter stay, or the command is stored under the counter
    and the counter moves on by one. *)
Lemma toSafeCommand_outcome command disposables r :
  let conv' := commandsConverter (registry_of (toSafeCommand command disposables r)) in
  (commandsMap conv' = commandsMap (commandsConverter r) /\
   handle conv' = handle (commandsConverter r))
  \/ (carriesArguments command = true /\
      commandsMap conv' = <[handle (commandsConverter r) := command]> (commandsMap (commandsConverter r)) /\
      handle conv' = handle (commandsConverter r) + 1).
Proof.
  intros conv'. subst conv'.
  destruct (isSafeCommandRegistered (commandsConverter r)) eqn:Hreg.
  - rewrite toSafeCommand_ready by (by left). cbv zeta.
    unfold withSafeCommand. rewrite Hreg.
    destruct (carriesArguments command); [right | left]; simpl; auto.
  - destruct (decide (safeCommandId (commandsConverter r) ∈ commands r)) as [Hin | Hfresh];
      [| destruct (handlers r !! safeCommandId (commandsConverter r)) eqn:Hh].
    + left. unfold toSafeCommand. unfold_M. rewrite Hreg.
      rewrite registerCommand_duplicate by exact Hin. auto.
    + left. unfold toSafeCommand. unfold_M. rewrite Hreg.
      rewrite registerCommand_fresh by exact Hfresh.
      rewrite registerHandler_attached by (simpl; rewrite Hh; eauto). auto.
    + rewrite toSafeCommand_ready by (right; by split). cbv zeta.
      destruct (withSafeCommand_converter r) as (_ & Hmap & Hhandle & _).
      destruct (carriesArguments command); [right | left]; simpl; rewrite ?Hmap, ?Hhandle; auto.
Qed.

Lemma dollar_executeCommand_converter fuel r id args o r' :
  dollar_executeCommand KnownCommands_map main_executeCommand fuel r id args = Some (o, r') ->
  commandsConverter r' = commandsConverter r.
Proof.
  destruct (handlers r !! id) as [h |] eqn:Hh.
  - rewrite (dollar_executeCommand_local _ _ _ _ h Hh).
    rewrite <- (executeCommand_local _ _ _ _ h Hh). apply executeCommand_converter.
  - rewrite (dollar_executeCommand_none _ _ _ _ Hh). by intros [= _ <-].
Qed.

Lemma executeSafeCommand_converter fuel r args o r' :
  executeSafeCommand KnownCommands_map main_executeCommand fuel r args = Some (o, r') ->
  commandsConverter r' = commandsConverter r.
Proof.
  unfold executeSafeCommand, executeSafeCommand_body.
  destruct (getSafeCommand _ _) as [command |]; [| by intros [= _ <-]].
  destruct (truthy (cmd_command command)) as [id |]; [| by intros [= _ <-]].
  apply executeCommand_converter.
Qed.

(** C9. Handles are fresh and are released by their scope only.  The
    counter bounds every handle in use, from the start and after every
    conversion and release.  A conversion never drops or overwrites a
    mapping; the handle it allocates is the counter, which is in no mapping
    and above every handle in use, and the closure that releases it goes onto
    the scope of that conversion.  Releasing a disposable removes exactly the
    handles whose release closure it runs, and the disposables of
    [registerCommand] and [registerHandler] run none.  Registering a command,
    a handler or an argument processor leaves the converter as it is, and so
    does executing, a plugin handler being taken as a function that does not
    call back into the registry. *)
Theorem handles_fresh_released_by_scope_only :
  (forall stamp, handles_below (commandsConverter (new_CommandRegistryImpl stamp)))
  /\ (forall command disposables r,
        handles_below (commandsConverter r) ->
        handles_below (commandsConverter (registry_of (toSafeCommand command disposables r)))
        /\ (forall k c,
              commandsMap (commandsConverter r) !! k = Some c ->
              commandsMap (commandsConverter (registry_of (toSafeCommand command disposables r)))
                !! k = Some c)
        /\ (forall result disposables' r',
              toSafeCommand command disposables r = Returned (result, disposables') r' ->
              carriesArguments command = true ->
              cmd_arguments result = Some [VNumber (handle (commandsConverter r))]
              /\ commandsMap (commandsConverter r) !! handle (commandsConverter r) = None
              /\ (forall k, is_Some (commandsMap (commandsConverter r) !! k) ->
                            k < handle (commandsConverter r))
              /\ handle (commandsConverter r) < handle (commandsConverter r')
              /\ disposables' = disposables ++ [DeleteSafeCommand (handle (commandsConverter r))]))
  /\ (forall d r,
        handles_below (commandsConverter r) -> handles_below (commandsConverter (dispose d r)))
  /\ (forall d r k,
        commandsMap (commandsConverter (dispose d r)) !! k =
          if releases k d then None else commandsMap (commandsConverter r) !! k)
  /\ (forall command handler thisArg r,
        commandsConverter (registry_of (registerCommand command handler thisArg r)) =
          commandsConverter r
        /\ forall d r' k,
             registerCommand command handler thisArg r = Returned d r' -> releases k d = false)
  /\ (forall commandId handler thisArg r,
        commandsConverter (registry_of (registerHandler commandId handler thisArg r)) =
          commandsConverter r
        /\ forall d r' k,
             registerHandler commandId handler thisArg r = Returned d r' -> releases k d = false)
  /\ (forall p r, commandsConverter (registerArgumentProcessor p r) = commandsConverter r)
  /\ (forall fuel r id args o r',
        execute fuel r id args = Some (o, r') -> commandsConverter r' = commandsConverter r)
  /\ (forall fuel r id args o r',
        dollar_executeCommand KnownCommands_map main_executeCommand fuel r id args = Some (o, r') ->
        commandsConverter r' = commandsConverter r)
  /\ (forall fuel r args o r',
        executeSafeCommand KnownCommands_map main_executeCommand fuel r args = Some (o, r') ->
        commandsConverter r' = commandsConverter r).
Proof.
  split; [| split; [| split; [| split; [| split; [| split; [| split; [| split; [| split]]]]]]]].
  - intros stamp. split; [simpl; lia |].
    intros k [c Hc]. simpl in Hc. rewrite lookup_empty in Hc. discriminate.
  - intros command disposables r [Hpos Hbelow].
    assert (Hfree : commandsMap (commandsConverter r) !! handle (commandsConverter r) = None).
    { destruct (commandsMap (commandsConverter r) !! handle (commandsConverter r)) eqn:Hc;
        [| reflexivity].
      specialize (Hbelow _ ltac:(eauto)). lia. }
    pose proof (toSafeCommand_outcome command disposables r) as Hout. cbv zeta in Hout.
    split; [| split].
    + destruct Hout as [[Hmap Hh] | (_ & Hmap & Hh)]; split; rewrite ?Hmap, ?Hh; try lia;
        try exact Hbelow.
      intros k. rewrite lookup_insert. case_decide as Hk.
      * subst. lia.
      * intros Hsome. specialize (Hbelow k Hsome). lia.
    + intros k c Hc. destruct Hout as [[-> _] | (_ & -> & _)]; [exact Hc |].
      rewrite lookup_insert_ne; [exact Hc | congruence].
    + intros result disposables' r' Hret Hcarries.
      pose proof (toSafeCommand_returned _ _ _ _ _ Hret) as Hready.
      destruct (toSafeCommand_converts command disposables r Hready Hcarries)
        as (r'' & Hret' & _ & Hh & _).
      rewrite Hret in Hret'. injection Hret' as -> -> ->.
      split; [reflexivity |]. split; [exact Hfree |].
      split; [intros k Hk; specialize (Hbelow k Hk); lia |].
      split; [lia | reflexivity].
  - apply dispose_handles_below.
  - apply dispose_commandsMap.
  - intros command handler thisArg r. split; [apply registerCommand_converter |].
    intros d r' k. apply registerCommand_releases.
  - intros commandId handler thisArg r. split; [apply registerHandler_converter |].
    intros d r' k. apply registerHandler_releases.
  - reflexivity.
  - apply executeCommand_converter.
  - apply dollar_executeCommand_converter.
  - apply executeSafeCommand_converter.
Qed.

End ExecutionFacts.

(** ** Counterexamples to the claims that the code does not meet *)

(** C5 as stated fails: ['x'] is not a registered command, yet registering
    it with a handler does not return, because ['x'] already has a handler
    from [registerHandler]. *)
Lemma registerCommand_fresh_id_throws :
  ("x" ∉ commands registry_handler_x)
  /\ ~ exists d r',
       registerCommand {| desc_id := "x"; desc_label := None |} (Some sumArguments) VUndefined
         registry_handler_x = Returned d r'.
Proof.
  split; [vm_compute; set_solver |].
  intros (d & r' & Hret). vm_compute in Hret. discriminate.
Qed.

(** C8 as stated fails: ['x'] has a handler from [registerHandler]; the
    command ['x'] is then registered without a handler and its disposable
    released, and [$executeCommand('x', 5)] still resolves. *)
Lemma registerCommand_dispose_still_executes :
  exists d r',
    registerCommand {| desc_id := "x"; desc_label := None |} None VUndefined registry_handler_x
      = Returned d r'
    /\ dollar_executeCommand identity_map rejecting_main 0 (dispose d r') "x" [VNumber 5]
       = Some (Resolved (VNumber 5), dispose d r').
Proof.
  eexists _, _. split; [vm_compute; reflexivity |]. vm_compute. reflexivity.
Qed.

(** C1 as stated fails: the command carries the argument list [[7]], and
    the conversion returns it as it was, with no handle stored, because its
    [command] property is absent. *)
Lemma toSafeCommand_arguments_not_rewritten :
  cmd_arguments command_without_id = Some [VNumber 7]
  /\ exists r',
       toSafeCommand command_without_id [] registry0 = Returned (command_without_id, []) r'
       /\ cmd_command command_without_id <> Some (safeCommandId (commandsConverter r'))
       /\ cmd_arguments command_without_id <> Some [VNumber (handle (commandsConverter registry0))]
       /\ commandsMap (commandsConverter r') = ∅.
Proof.
  split; [reflexivity |]. eexists. split; [vm_compute; reflexivity |].
  split; [discriminate |]. split; [discriminate |]. vm_compute. reflexivity.
Qed.

(** C10 as stated fails: the [command] property of the command is absent,
    and the conversion does not return it, because the identifier of the
    trampoline is already a registered command and the lazy registration
    throws. *)
Lemma toSafeCommand_without_command_throws :
  truthy (cmd_command command_without_id) = None
  /\ toSafeCommand command_without_id [] registry_taken =
       Thrown (VError "Command theia_safe_cmd_0 already exist") registry_taken
  /\ ~ exists x r', toSafeCommand command_without_id [] registry_taken = Returned x r'.
Proof.
  assert (Hthrown : toSafeCommand command_without_id [] registry_taken =
            Thrown (VError "Command theia_safe_cmd_0 already exist") registry_taken)
    by (vm_compute; reflexivity).
  split; [reflexivity |]. split; [exact Hthrown |].
  intros (x & r' & Hret). rewrite Hthrown in Hret. discriminate Hret.
Qed.

(** ** The theorems at sample registries *)

Lemma registry0_ready : safe_ready registry0.
Proof.
  right. split; [apply not_elem_of_empty | apply lookup_empty].
Defined.

Lemma registry0_handles_below : handles_below (commandsConverter registry0).
Proof.
  split; [simpl; lia |]. intros k [c Hc]. simpl in Hc. rewrite lookup_empty in Hc. discriminate.
Defined.

Lemma toSafeCommand_spec_witness :
  exists r',
    toSafeCommand command_xy [] registry0 =
      Returned (safeCommand (commandsConverter registry0) command_xy 0, [DeleteSafeCommand 0]) r'
    /\ commandsMap (commandsConverter r') !! 0 = Some command_xy
    /\ handle (commandsConverter r') = 1.
Proof.
  destruct (toSafeCommand_spec command_xy [] registry0 registry0_ready) as [Hconverts _].
  exact (Hconverts "x" (VNumber 1) [VNumber 2] eq_refl eq_refl).
Defined.

Lemma toSafeCommand_round_trip_witness :
  exists h result disposables' r',
    toSafeCommand command_xy [] registry0 = Returned (result, disposables') r'
    /\ cmd_command result = Some (safeCommandId (commandsConverter r'))
    /\ cmd_arguments result = Some [VNumber h]
    /\ forall fuel,
         executeSafeCommand identity_map rejecting_main fuel r' [VNumber h] =
           executeCommand identity_map rejecting_main fuel r' "x" [VNumber 1; VNumber 2].
Proof.
  destruct (toSafeCommand_round_trip identity_map rejecting_main command_xy [] registry0
              "x" (VNumber 1) [VNumber 2] registry0_ready eq_refl eq_refl)
    as (h & result & disposables' & r' & Hret & Hid & Hargs & Hnow & _).
  exists h, result, disposables', r'. auto.
Defined.

Lemma executeSafeCommand_released_witness :
  exists h result disposables' r',
    toSafeCommand command_xy [] registry0 = Returned (result, disposables') r'
    /\ cmd_arguments result = Some [VNumber h]
    /\ commandsMap (commandsConverter r') !! h = Some command_xy
    /\ forall fuel,
         executeSafeCommand identity_map rejecting_main fuel
             (dispose_collection disposables' r') [VNumber h] =
           Some (Rejected (VString "command NOT FOUND"), dispose_collection disposables' r').
Proof.
  destruct (executeSafeCommand_released identity_map rejecting_main command_xy [] registry0)
    as [Hreleased _].
  exact (Hreleased registry0_ready eq_refl).
Defined.

Lemma dollar_executeCommand_local_only_witness :
  dollar_executeCommand identity_map rejecting_main 0 registry0 "x" [VNumber 5] =
    Some (Rejected (VError "Command: x does not exist."), registry0)
  /\ dollar_executeCommand identity_map rejecting_main 0 registry_handler_x "x" [VNumber 5] =
       Some (Resolved (VNumber 5), registry_handler_x)
  /\ dollar_executeCommand identity_map rejecting_main 1 registry_converted
         "theia_safe_cmd_0" [VNumber 0] =
       executeSafeCommand identity_map rejecting_main 1 registry_converted [VNumber 0].
Proof.
  split; [| split].
  - destruct (dollar_executeCommand_local_only identity_map rejecting_main 0 registry0 "x"
                [VNumber 5]) as (_ & _ & Hnone).
    exact (Hnone (lookup_empty _)).
  - destruct (dollar_executeCommand_local_only identity_map rejecting_main 0 registry_handler_x
                "x" [VNumber 5]) as (Hfunction & _ & _).
    exact (Hfunction (bound firstArgument VUndefined) _ eq_refl eq_refl).
  - destruct (dollar_executeCommand_local_only identity_map rejecting_main 1 registry_converted
                "theia_safe_cmd_0" [VNumber 0]) as (_ & Hsafe & _).
    exact (Hsafe (bound HExecuteSafeCommand converterRef) eq_refl eq_refl).
Defined.

Lemma registerCommand_spec_witness :
  exists d r',
    registerCommand {| desc_id := "x"; desc_label := None |} (Some firstArgument) VUndefined
      registry0 = Returned d r'
    /\ commands r' = commands registry0 ∪ {["x"]}
    /\ proxy r' = [PRegisterCommand {| desc_id := "x"; desc_label := None |};
                   PRegisterHandler "x"]
    /\ handlers r' = <["x" := bound firstArgument VUndefined]> (handlers registry0).
Proof.
  destruct (registerCommand_spec {| desc_id := "x"; desc_label := None |} (Some firstArgument)
              VUndefined registry0) as (_ & Hfresh & _).
  exact (Hfresh (not_elem_of_empty _) (or_intror (lookup_empty _))).
Defined.

Lemma registerHandler_spec_witness :
  exists d r',
    registerHandler "x" firstArgument (VObject 1) registry0 = Returned d r'
    /\ handlers r' !! "x" = Some (bound firstArgument (VObject 1))
    /\ executeCommand identity_map rejecting_main 1 r' "x" [VNumber 5] =
         Some (Resolved (processArgument (argumentProcessors r') (VNumber 5)), r')
    /\ handlers (dispose d r') !! "x" = None
    /\ proxy (dispose d r') = [PRegisterHandler "x"; PUnregisterHandler "x"].
Proof.
  destruct (registerHandler_spec identity_map rejecting_main "x" firstArgument (VObject 1)
              registry0) as [_ Hfree].
  destruct (Hfree (lookup_empty _))
    as (d & r' & Hret & Hh & Hproxy & _ & Hrun & Hgone & _ & Hproxy').
  exists d, r'. split; [exact Hret |].
  split; [rewrite Hh; apply lookup_insert_eq |].
  split; [exact (Hrun _ 0%nat [VNumber 5] eq_refl) |].
  split; [exact Hgone |]. rewrite Hproxy', Hproxy. reflexivity.
Defined.


Lemma registerCommand_dispose_witness :
  exists d r',
    registerCommand {| desc_id := "x"; desc_label := None |} None VUndefined registry0
      = Returned d r'
    /\ ("x" ∉ commands (dispose d registry_handler_x))
    /\ dollar_executeCommand identity_map rejecting_main 1 (dispose d registry0) "x" [VNumber 5] =
         Some (Rejected (VError "Command: x does not exist."), dispose d registry0)
    /\ dollar_executeCommand identity_map rejecting_main 1 (dispose d registry_handler_x) "x"
           [VNumber 5] =
         Some (Resolved (VNumber 5), dispose d registry_handler_x).
Proof.
  destruct (registerCommand_dispose identity_map rejecting_main
              {| desc_id := "x"; desc_label := None |} None VUndefined registry0
              (not_elem_of_empty _) (or_introl eq_refl))
    as (d & r' & Hret & Hlater).
  exists d, r'. split; [exact Hret |].
  destruct (Hlater registry0) as (_ & _ & _ & _ & Hrejected & _).
  destruct (Hlater registry_handler_x) as (Hcommands & _ & _ & _ & _ & Hsurvives).
  split; [exact Hcommands |].
  split; [exact (Hrejected (or_intror (lookup_empty _)) 1%nat [VNumber 5]) |].
  exact (Hsurvives eq_refl (bound firstArgument VUndefined) _ eq_refl eq_refl 1%nat [VNumber 5]).
Defined.

Lemma handles_fresh_released_by_scope_only_witness :
  handles_below (commandsConverter registry_converted)
  /\ commandsMap (commandsConverter registry_converted) !! 0 = Some command_xy
  /\ (exists result scope r',
        toSafeCommand command_ya [DeleteSafeCommand 0] registry_converted
          = Returned (result, scope) r'
        /\ handles_below (commandsConverter r')
        /\ commandsMap (commandsConverter r') !! 0 = Some command_xy
        /\ cmd_arguments result = Some [VNumber 1]
        /\ commandsMap (commandsConverter registry_converted) !! 1 = None
        /\ (forall k, is_Some (commandsMap (commandsConverter registry_converted) !! k) -> k < 1)
        /\ scope = [DeleteSafeCommand 0; DeleteSafeCommand 1])
  /\ commandsMap (commandsConverter (dispose (DeleteSafeCommand 0) registry_converted)) !! 0 = None
  /\ commandsMap (commandsConverter
                    (dispose (DisposableFrom [UnregisterHandler "x"; UnregisterCommand "x"])
                       registry_converted)) !! 0 = Some command_xy
  /\ (forall k, releases k (DisposableFrom [UnregisterHandler "x"; UnregisterCommand "x"]) = false).
Proof.
  destruct (handles_fresh_released_by_scope_only identity_map rejecting_main)
    as (_ & Hconversion & _ & Hdispose & Hcommand & _).
  destruct (Hconversion command_xy [] registry0 registry0_handles_below) as (Hbelow & _ & _).
  destruct (Hconversion command_ya [DeleteSafeCommand 0] registry_converted Hbelow)
    as (Hbelow' & Hkept & Hfresh).
  assert (Hready : safe_ready registry_converted) by (left; reflexivity).
  destruct (toSafeCommand_converts command_ya [DeleteSafeCommand 0] registry_converted
              Hready eq_refl) as (r' & Hret & _).
  destruct (Hfresh _ _ _ Hret eq_refl) as (Hargs & Hfree & Habove & _ & Hscope).
  rewrite Hret in Hbelow', Hkept.
  split; [exact Hbelow |]. split; [reflexivity |]. split.
  - eexists _, _, r'. split; [exact Hret |]. split; [exact Hbelow' |].
    split; [exact (Hkept 0 command_xy eq_refl) |]. split; [exact Hargs |].
    split; [exact Hfree |]. split; [exact Habove | exact Hscope].
  - split; [exact (Hdispose (DeleteSafeCommand 0) registry_converted 0) |].
    split; [exact (Hdispose (DisposableFrom [UnregisterHandler "x"; UnregisterCommand "x"])
                     registry_converted 0) |].
    intros k.
    destruct (Hcommand {| desc_id := "x"; desc_label := None |} (Some firstArgument) VUndefined
                registry0) as [_ Hnone].
    exact (Hnone _ _ k eq_refl).
Defined.

Lemma toSafeCommand_without_command_witness :
  exists r',
    toSafeCommand command_without_id [] registry0 = Returned (command_without_id, []) r'
    /\ handle (commandsConverter r') = handle (commandsConverter registry0)
    /\ commandsMap (commandsConverter r') = commandsMap (commandsConverter registry0).
Proof.
  destruct (toSafeCommand_without_command command_without_id [] registry0) as [Hpasses _].
  exact (Hpasses registry0_ready eq_refl).
Defined.

(** * Further properties of the registry *)

(** ** The remote command list *)


Section RegistryFacts.

Variable KnownCommands_map : string -> list Value -> string * list Value.
Variable main_executeCommand : string -> list Value -> Outcome.

Local Abbreviation execute := (executeCommand KnownCommands_map main_executeCommand).
Local Abbreviation answer id args :=
  (main_executeCommand (KnownCommands_map id args).1 (KnownCommands_map id args).2).
Local Abbreviation forwarded id args :=
  (PExecuteCommand (KnownCommands_map id args).1 (KnownCommands_map id args).2).

(** ** Forwarding *)

(** X2. Without a local handler [executeCommand] forwards: the identifier
    and the arguments go, untouched by the argument processors, through the
    known-command table to the remote side, and the execution settles as the
    remote side does.  Exactly that one call is added to the proxy log and
    nothing else in the registry changes.  Whether the identifier is a
    registered command, and which argument processors are registered, makes
    no difference to the call and the outcome. *)
Theorem executeCommand_forwards_once fuel r id args :
  handlers r !! id = None ->
  exists r',
    execute (S fuel) r id args = Some (answer id args, r')
    /\ proxy r' = proxy r ++ [forwarded id args]
    /\ commands r' = commands r /\ handlers r' = handlers r
    /\ argumentProcessors r' = argumentProcessors r
    /\ commandsConverter r' = commandsConverter r
    /\ forall c ps,
         exists r'',
           execute (S fuel) (set_argumentProcessors ps (set_commands c r)) id args =
             Some (answer id args, r'')
           /\ proxy r'' = proxy r ++ [forwarded id args].
Proof.
  intros Hnone. eexists. split; [by apply executeCommand_forward |].
  repeat (split; [reflexivity |]).
  intros c ps. eexists. split; [by apply executeCommand_forward | reflexivity].
Qed.

(** ** Registering and releasing *)

Lemma commands_add_remove (c : gset string) id :
  id ∉ c -> (c ∪ {[id]}) ∖ {[id]} = c.
Proof.
  intros Hfresh. apply leibniz_equiv. intros x.
  rewrite elem_of_difference, elem_of_union, elem_of_singleton.
  split; [intros [[Hx | ->] Hne]; [exact Hx | contradiction] |].
  intros Hx. split; [by left | intros ->; contradiction].
Qed.

(** X4. Registering a handler and releasing its disposable is a round
    trip: the registry is as before, except that the proxy has been told of
    the registration and of its withdrawal; the identifier can then be given
    a handler again. *)
Theorem registerHandler_dispose_restores commandId handler thisArg r :
  handlers r !! commandId = None ->
  exists d r',
    registerHandler commandId handler thisArg r = Returned d r'
    /\ dispose d r' =
         set_proxy (proxy r ++ [PRegisterHandler commandId; PUnregisterHandler commandId]) r
    /\ forall handler' thisArg',
         exists d2 r2, registerHandler commandId handler' thisArg' (dispose d r') = Returned d2 r2.
Proof.
  intros Hnone. rewrite registerHandler_free by exact Hnone.
  eexists _, _. split; [reflexivity |].
  assert (Hback : dispose (UnregisterHandler commandId)
            (set_handlers (<[commandId := bound handler thisArg]> (handlers r))
               (call (PRegisterHandler commandId) r)) =
          set_proxy (proxy r ++ [PRegisterHandler commandId; PUnregisterHandler commandId]) r).
  { unfold dispose, call, set_handlers, set_proxy. simpl.
    rewrite delete_insert_id by exact Hnone. rewrite <- app_assoc. by destruct r. }
  split; [exact Hback |].
  intros handler' thisArg'. rewrite Hback.
  rewrite registerHandler_free by exact Hnone. eauto.
Qed.

(** X5. Registering a command, with or without a handler, on an identifier
    that is neither registered nor has a handler, and releasing the
    disposable, is a round trip: the registry is as before except for the
    proxy log, and the same registration goes through again. *)
Theorem registerCommand_dispose_restores command handler thisArg r :
  desc_id command ∉ commands r ->
  handlers r !! desc_id command = None ->
  exists d r',
    registerCommand command handler thisArg r = Returned d r'
    /\ dispose d r' = set_proxy (proxy (dispose d r')) r
    /\ exists d2 r2, registerCommand command handler thisArg (dispose d r') = Returned d2 r2.
Proof.
  intros Hfresh Hnone.
  assert (Hagain : forall p, exists d2 r2,
            registerCommand command handler thisArg (set_proxy p r) = Returned d2 r2).
  { intros p. rewrite registerCommand_fresh by exact Hfresh.
    destruct handler as [h |]; [| eauto].
    rewrite registerHandler_free by exact Hnone. eauto. }
  rewrite registerCommand_fresh by exact Hfresh.
  destruct handler as [h |].
  - rewrite registerHandler_free by exact Hnone.
    eexists _, _. split; [reflexivity |].
    match goal with |- ?x = _ /\ _ => assert (Hback : x = set_proxy (proxy x) r) end.
    { unfold dispose, recorded, call, set_handlers, set_commands, set_proxy. simpl.
      rewrite delete_insert_id by exact Hnone.
      rewrite commands_add_remove by exact Hfresh. by destruct r. }
    split; [exact Hback |]. rewrite Hback. apply Hagain.
  - eexists _, _. split; [reflexivity |].
    match goal with |- ?x = _ /\ _ => assert (Hback : x = set_proxy (proxy x) r) end.
    { unfold dispose, recorded, call, set_handlers, set_commands, set_proxy. simpl.
      rewrite commands_add_remove by exact Hfresh. by destruct r. }
    split; [exact Hback |]. rewrite Hback. apply Hagain.
Qed.

(** X6. When [registerCommand] is given a handler for a fresh identifier
    that already has one, it throws only after it has recorded the identifier
    and told the remote side: the identifier stays in the set of commands, no
    disposable is handed out, the handlers are untouched, and every further
    [registerCommand] for the identifier throws the duplicate error. *)
Theorem registerCommand_handler_conflict command h thisArg r :
  desc_id command ∉ commands r ->
  is_Some (handlers r !! desc_id command) ->
  exists r',
    registerCommand command (Some h) thisArg r =
      Thrown (VError ("Command " +:+ dquote +:+ desc_id command +:+ dquote
                        +:+ " already has handler")) r'
    /\ commands r' = commands r ∪ {[desc_id command]}
    /\ handlers r' = handlers r
    /\ proxy r' = proxy r ++ [PRegisterCommand command]
    /\ forall handler' thisArg',
         registerCommand command handler' thisArg' r' =
           Thrown (VError ("Command " +:+ desc_id command +:+ " already exist")) r'.
Proof.
  intros Hfresh Hsome. rewrite registerCommand_fresh by exact Hfresh.
  rewrite registerHandler_attached by exact Hsome.
  eexists. split; [reflexivity |]. repeat split.
  intros handler' thisArg'. apply registerCommand_duplicate.
  simpl. apply elem_of_union_r. by apply elem_of_singleton.
Qed.

(** ** The lazy registration of the trampoline *)

Lemma dispose_collection_registered disposables r :
  isSafeCommandRegistered (commandsConverter (dispose_collection disposables r)) =
    isSafeCommandRegistered (commandsConverter r).
Proof.
  induction disposables as [| d ds IH]; simpl; [reflexivity |].
  destruct (dispose_converter d (dispose_collection ds r)) as (_ & _ & ->). exact IH.
Qed.

(** X7. [toSafeCommand] returns exactly when the trampoline is registered
    already or its identifier is free.  Otherwise the conversion throws
    before it looks at the command: with the duplicate-command error and the
    registry untouched when the identifier is a registered command; with
    the duplicate-handler error when only a handler holds the identifier, and
    then the identifier has been recorded as a command, the flag is still
    unset, and every later conversion throws the duplicate-command error. *)
Theorem toSafeCommand_returns_iff command disposables r :
  ((exists x r', toSafeCommand command disposables r = Returned x r') <-> safe_ready r)
  /\ (isSafeCommandRegistered (commandsConverter r) = false ->
      safeCommandId (commandsConverter r) ∈ commands r ->
      toSafeCommand command disposables r =
        Thrown (VError ("Command " +:+ safeCommandId (commandsConverter r) +:+ " already exist")) r)
  /\ (isSafeCommandRegistered (commandsConverter r) = false ->
      safeCommandId (commandsConverter r) ∉ commands r ->
      is_Some (handlers r !! safeCommandId (commandsConverter r)) ->
      exists r',
        toSafeCommand command disposables r =
          Thrown (VError ("Command " +:+ dquote +:+ safeCommandId (commandsConverter r) +:+ dquote
                            +:+ " already has handler")) r'
        /\ commandsConverter r' = commandsConverter r
        /\ forall command' disposables',
             toSafeCommand command' disposables' r' =
               Thrown (VError ("Command " +:+ safeCommandId (commandsConverter r)
                                 +:+ " already exist")) r').
Proof.
  split; [| split].
  - split.
    + intros (x & r' & Hret). exact (toSafeCommand_returned _ _ _ _ _ Hret).
    + intros Hready. rewrite toSafeCommand_ready by exact Hready. cbv zeta.
      destruct (carriesArguments command); eauto.
  - intros Hreg Hin. unfold toSafeCommand. unfold_M. rewrite Hreg.
    by rewrite registerCommand_duplicate by exact Hin.
  - intros Hreg Hfresh Hsome. unfold toSafeCommand at 1. unfold_M. rewrite Hreg.
    rewrite registerCommand_fresh by exact Hfresh.
    rewrite registerHandler_attached by exact Hsome.
    eexists. split; [reflexivity |]. split; [reflexivity |].
    intros command' disposables'. unfold toSafeCommand. unfold_M. simpl. rewrite Hreg.
    rewrite registerCommand_duplicate; [reflexivity |].
    simpl. apply elem_of_union_r. by apply elem_of_singleton.
Qed.

(** X8. The trampoline is registered once.  A conversion that goes through
    leaves the flag set.  When the flag was set before, the conversion
    touches neither the commands, nor the handlers, nor the proxy; when it
    was not, the conversion records the trampoline identifier, binds it to
    [executeSafeCommand] and sends exactly the two registration calls, and it
    does so for a command it does not rewrite as well. *)
Theorem toSafeCommand_registers_once command disposables r :
  safe_ready r ->
  exists x r',
    toSafeCommand command disposables r = Returned x r'
    /\ isSafeCommandRegistered (commandsConverter r') = true
    /\ argumentProcessors r' = argumentProcessors r
    /\ (isSafeCommandRegistered (commandsConverter r) = true ->
        commands r' = commands r /\ handlers r' = handlers r /\ proxy r' = proxy r)
    /\ (isSafeCommandRegistered (commandsConverter r) = false ->
        commands r' = commands r ∪ {[safeCommandId (commandsConverter r)]}
        /\ handlers r' = <[safeCommandId (commandsConverter r) :=
                             bound HExecuteSafeCommand converterRef]> (handlers r)
        /\ proxy r' = proxy r ++
             [PRegisterCommand {| desc_id := safeCommandId (commandsConverter r);
                                  desc_label := None |};
              PRegisterHandler (safeCommandId (commandsConverter r))]).
Proof.
  intros Hready. rewrite toSafeCommand_ready by exact Hready. cbv zeta.
  destruct (withSafeCommand_converter r) as (_ & _ & _ & Hflag).
  assert (Hparts :
    argumentProcessors (withSafeCommand r) = argumentProcessors r
    /\ (isSafeCommandRegistered (commandsConverter r) = true ->
        commands (withSafeCommand r) = commands r /\ handlers (withSafeCommand r) = handlers r
        /\ proxy (withSafeCommand r) = proxy r)
    /\ (isSafeCommandRegistered (commandsConverter r) = false ->
        commands (withSafeCommand r) = commands r ∪ {[safeCommandId (commandsConverter r)]}
        /\ handlers (withSafeCommand r) =
             <[safeCommandId (commandsConverter r) :=
                 bound HExecuteSafeCommand converterRef]> (handlers r)
        /\ proxy (withSafeCommand r) = proxy r ++
             [PRegisterCommand {| desc_id := safeCommandId (commandsConverter r);
                                  desc_label := None |};
              PRegisterHandler (safeCommandId (commandsConverter r))])).
  { unfold withSafeCommand.
    destruct (isSafeCommandRegistered (commandsConverter r)); simpl.
    - split; [reflexivity |]. split; [auto | discriminate].
    - split; [reflexivity |]. split; [discriminate |]. intros _.
      split; [reflexivity |]. split; [reflexivity |]. by rewrite <- app_assoc. }
  destruct (carriesArguments command); eexists _, _; (split; [reflexivity |]);
    (split; [exact Hflag | exact Hparts]).
Qed.

(** ** Safe commands through the registry *)

Lemma withSafeCommand_bound r :
  trampoline_bound r ->
  handlers (withSafeCommand r) !! safeCommandId (commandsConverter r) =
    Some (bound HExecuteSafeCommand converterRef).
Proof.
  intros Hbound. unfold withSafeCommand.
  destruct (isSafeCommandRegistered (commandsConverter r)) eqn:Hreg.
  - by apply Hbound.
  - simpl. apply lookup_insert_eq.
Qed.

Lemma trampoline_through_registry fuel r args :
  handlers r !! safeCommandId (commandsConverter r) =
    Some (bound HExecuteSafeCommand converterRef) ->
  execute (S fuel) r (safeCommandId (commandsConverter r)) args =
    executeSafeCommand KnownCommands_map main_executeCommand fuel r
      (map (processArgument (argumentProcessors r)) args)
  /\ dollar_executeCommand KnownCommands_map main_executeCommand fuel r
       (safeCommandId (commandsConverter r)) args =
     executeSafeCommand KnownCommands_map main_executeCommand fuel r
       (map (processArgument (argumentProcessors r)) args).
Proof.
  intros Hh. split.
  - by rewrite (executeCommand_local _ _ _ _ _ _ _ Hh).
  - by rewrite (dollar_executeCommand_local _ _ _ _ _ _ _ Hh).
Qed.

(** X9. Executing a converted command through the registry, as its
    receiver does, passes the handle through the argument processors before
    the trampoline looks it up: both [executeCommand] and [$executeCommand]
    on the converted command are the trampoline on the processed handle.
    When the processors leave that number as it is, they re-execute the
    original identifier with the original arguments. *)
Theorem safeCommand_through_registry command disposables r id a args :
  safe_ready r ->
  trampoline_bound r ->
  truthy (cmd_command command) = Some id ->
  cmd_arguments command = Some (a :: args) ->
  exists h result disposables' r',
    toSafeCommand command disposables r = Returned (result, disposables') r'
    /\ cmd_command result = Some (safeCommandId (commandsConverter r'))
    /\ cmd_arguments result = Some [VNumber h]
    /\ (forall fuel,
          execute (S fuel) r' (safeCommandId (commandsConverter r')) [VNumber h] =
            executeSafeCommand KnownCommands_map main_executeCommand fuel r'
              [processArgument (argumentProcessors r') (VNumber h)]
          /\ dollar_executeCommand KnownCommands_map main_executeCommand fuel r'
               (safeCommandId (commandsConverter r')) [VNumber h] =
             executeSafeCommand KnownCommands_map main_executeCommand fuel r'
               [processArgument (argumentProcessors r') (VNumber h)])
    /\ (processArgument (argumentProcessors r') (VNumber h) = VNumber h ->
        forall fuel,
          execute (S fuel) r' (safeCommandId (commandsConverter r')) [VNumber h] =
            execute fuel r' id (a :: args)
          /\ dollar_executeCommand KnownCommands_map main_executeCommand fuel r'
               (safeCommandId (commandsConverter r')) [VNumber h] =
             execute fuel r' id (a :: args)).
Proof.
  intros Hready Hbound Hid Hargs.
  assert (Hcarries : carriesArguments command = true)
    by (apply carriesArguments_true; eauto).
  rewrite toSafeCommand_ready by exact Hready. cbv zeta. rewrite Hcarries.
  destruct (withSafeCommand_converter r) as (Hsid & Hmap & Hhandle & _).
  pose proof (withSafeCommand_bound r Hbound) as Hh.
  set (r1 := withSafeCommand r) in *.
  set (r' := set_commandsConverter (allocate command (commandsConverter r1)) r1).
  assert (Hh' : handlers r' !! safeCommandId (commandsConverter r') =
                  Some (bound HExecuteSafeCommand converterRef))
    by (simpl; rewrite Hsid; exact Hh).
  assert (Hstored : commandsMap (commandsConverter r') !! handle (commandsConverter r1)
                    = Some command) by (simpl; apply lookup_insert_eq).
  eexists _, _, _, r'. split; [reflexivity |]. split; [reflexivity |].
  split; [reflexivity |]. split.
  - intros fuel. exact (trampoline_through_registry fuel r' [VNumber _] Hh').
  - intros Hfixed fuel.
    destruct (trampoline_through_registry fuel r' [VNumber (handle (commandsConverter r1))] Hh')
      as [Hexec Hdollar].
    rewrite Hexec, Hdollar. cbn [map]. rewrite Hfixed.
    rewrite (executeSafeCommand_found _ _ _ _ _ _ command id Hstored Hid).
    rewrite Hargs. auto.
Qed.

Lemma toSafeCommand_sets_flag command disposables r x r1 :
  toSafeCommand command disposables r = Returned x r1 ->
  isSafeCommandRegistered (commandsConverter r1) = true.
Proof.
  intros Hret. pose proof (toSafeCommand_returned _ _ _ _ _ Hret) as Hready.
  assert (Hr1 : r1 = registry_of (toSafeCommand command disposables r))
    by (by rewrite Hret).
  rewrite Hr1, toSafeCommand_ready by exact Hready. cbv zeta.
  destruct (withSafeCommand_converter r) as (_ & _ & _ & Hflag).
  destruct (carriesArguments command); exact Hflag.
Qed.

(** X10. A released handle is not issued again and stays dead: after a
    conversion and the disposal of its scope, the next conversion gets a
    larger handle, the released handle is still in no mapping, and the
    trampoline on it is still rejected. *)
Theorem released_handle_not_reissued command1 command2 disposables1 disposables2 r :
  safe_ready r ->
  carriesArguments command1 = true ->
  carriesArguments command2 = true ->
  exists h1 result1 scope1 r1 h2 result2 scope2 r2,
    toSafeCommand command1 disposables1 r = Returned (result1, scope1) r1
    /\ cmd_arguments result1 = Some [VNumber h1]
    /\ toSafeCommand command2 disposables2 (dispose_collection scope1 r1)
         = Returned (result2, scope2) r2
    /\ cmd_arguments result2 = Some [VNumber h2]
    /\ h1 < h2
    /\ commandsMap (commandsConverter r2) !! h1 = None
    /\ commandsMap (commandsConverter r2) !! h2 = Some command2
    /\ forall fuel,
         executeSafeCommand KnownCommands_map main_executeCommand fuel r2 [VNumber h1] =
           Some (Rejected (VString "command NOT FOUND"), r2).
Proof.
  intros Hready Hc1 Hc2.
  destruct (toSafeCommand_converts command1 disposables1 r Hready Hc1)
    as (r1 & Hret1 & Hmap1 & Hh1 & _).
  set (scope1 := disposables1 ++ [DeleteSafeCommand (handle (commandsConverter r))]) in *.
  pose proof (toSafeCommand_sets_flag _ _ _ _ _ Hret1) as Hflag1.
  assert (Hready' : safe_ready (dispose_collection scope1 r1))
    by (left; by rewrite dispose_collection_registered).
  destruct (toSafeCommand_converts command2 disposables2 _ Hready' Hc2)
    as (r2 & Hret2 & Hmap2 & Hh2 & _).
  destruct (dispose_collection_converter scope1 r1) as [_ Hhandle].
  assert (Hgone : commandsMap (commandsConverter r2) !! handle (commandsConverter r) = None).
  { rewrite Hmap2, Hhandle, Hh1. rewrite lookup_insert_ne by lia.
    rewrite dispose_collection_commandsMap. unfold scope1.
    rewrite existsb_app. simpl. rewrite bool_decide_eq_true_2 by reflexivity.
    by rewrite orb_true_r. }
  eexists _, _, _, r1, _, _, _, r2.
  split; [exact Hret1 |]. split; [reflexivity |]. split; [exact Hret2 |].
  split; [reflexivity |]. split; [rewrite Hhandle, Hh1; lia |].
  split; [exact Hgone |]. split; [rewrite Hmap2; apply lookup_insert_eq |].
  intros fuel. apply executeSafeCommand_not_found.
  unfold getSafeCommand. simpl. exact Hgone.
Qed.

(** X11. Scopes are independent: of two conversions into two scopes,
    disposing the first scope removes the first handle and leaves the second
    mapped to its command, so that the trampoline on the second handle still
    re-executes the second command; provided the first scope held no release
    of that handle beforehand. *)
Theorem dispose_collection_isolated command1 command2 disposables1 disposables2 r id2 args2 :
  safe_ready r ->
  carriesArguments command1 = true ->
  truthy (cmd_command command2) = Some id2 ->
  cmd_arguments command2 = Some args2 ->
  carriesArguments command2 = true ->
  existsb (releases (handle (commandsConverter r) + 1)) disposables1 = false ->
  exists h1 result1 scope1 r1 h2 result2 scope2 r2,
    toSafeCommand command1 disposables1 r = Returned (result1, scope1) r1
    /\ cmd_arguments result1 = Some [VNumber h1]
    /\ toSafeCommand command2 disposables2 r1 = Returned (result2, scope2) r2
    /\ cmd_arguments result2 = Some [VNumber h2]
    /\ h1 <> h2
    /\ commandsMap (commandsConverter (dispose_collection scope1 r2)) !! h1 = None
    /\ commandsMap (commandsConverter (dispose_collection scope1 r2)) !! h2 = Some command2
    /\ forall fuel,
         executeSafeCommand KnownCommands_map main_executeCommand fuel
             (dispose_collection scope1 r2) [VNumber h2] =
           execute fuel (dispose_collection scope1 r2) id2 args2.
Proof.
  intros Hready Hc1 Hid2 Hargs2 Hc2 Hclean.
  destruct (toSafeCommand_converts command1 disposables1 r Hready Hc1)
    as (r1 & Hret1 & Hmap1 & Hh1 & _).
  assert (Hready1 : safe_ready r1) by (left; exact (toSafeCommand_sets_flag _ _ _ _ _ Hret1)).
  destruct (toSafeCommand_converts command2 disposables2 r1 Hready1 Hc2)
    as (r2 & Hret2 & Hmap2 & Hh2 & _).
  set (scope1 := disposables1 ++ [DeleteSafeCommand (handle (commandsConverter r))]) in *.
  assert (Hkept : commandsMap (commandsConverter (dispose_collection scope1 r2))
                    !! handle (commandsConverter r1) = Some command2).
  { rewrite dispose_collection_commandsMap. unfold scope1. rewrite existsb_app.
    rewrite Hh1, Hclean. simpl. rewrite bool_decide_eq_false_2 by lia. simpl.
    rewrite Hmap2, Hh1. apply lookup_insert_eq. }
  eexists _, _, _, r1, _, _, _, r2.
  split; [exact Hret1 |]. split; [reflexivity |]. split; [exact Hret2 |].
  split; [reflexivity |]. split; [rewrite Hh1; lia |]. split; [| split; [exact Hkept |]].
  - rewrite dispose_collection_commandsMap. unfold scope1. rewrite existsb_app. simpl.
    rewrite bool_decide_eq_true_2 by reflexivity. by rewrite orb_true_r.
  - intros fuel.
    rewrite (executeSafeCommand_found _ _ _ _ _ _ command2 id2 Hkept Hid2).
    by rewrite Hargs2.
Qed.

(** X12. The flag of the lazy registration is never reset.  After a
    conversion that returned, conversions keep going through, whatever is
    released, registered or converted in between, also when the trampoline
    identifier has been unregistered meanwhile. *)
Theorem toSafeCommand_stays_ready command disposables r x r1 :
  toSafeCommand command disposables r = Returned x r1 ->
  safe_ready r1
  /\ (forall scope, safe_ready (dispose_collection scope r1))
  /\ (forall d, safe_ready (dispose d r1))
  /\ (forall description handler thisArg,
        safe_ready (registry_of (registerCommand description handler thisArg r1)))
  /\ (forall commandId handler thisArg,
        safe_ready (registry_of (registerHandler commandId handler thisArg r1)))
  /\ (forall scope command' disposables',
        exists x' r2, toSafeCommand command' disposables' (dispose_collection scope r1)
                      = Returned x' r2).
Proof.
  intros Hret. pose proof (toSafeCommand_returned _ _ _ _ _ Hret) as Hready.
  pose proof (toSafeCommand_sets_flag _ _ _ _ _ Hret) as Hflag.
  assert (Hscope : forall scope, safe_ready (dispose_collection scope r1))
    by (intros scope; left; by rewrite dispose_collection_registered).
  split; [by left |]. split; [exact Hscope |]. split; [| split; [| split]].
  - intros d. left. destruct (dispose_converter d r1) as (_ & _ & ->). exact Hflag.
  - intros description handler thisArg. left. by rewrite registerCommand_converter.
  - intros commandId handler thisArg. left. by rewrite registerHandler_converter.
  - intros scope command' disposables'.
    rewrite toSafeCommand_ready by apply Hscope. cbv zeta.
    destruct (carriesArguments command'); eauto.
Qed.

Lemma toSafeCommand_keeps_trampoline command disposables r x r1 :
  trampoline_bound r ->
  toSafeCommand command disposables r = Returned x r1 ->
  handlers r1 !! safeCommandId (commandsConverter r1) =
    Some (bound HExecuteSafeCommand converterRef)
  /\ safeCommandId (commandsConverter r1) = safeCommandId (commandsConverter r)
  /\ argumentProcessors r1 = argumentProcessors r.
Proof.
  intros Hbound Hret. pose proof (toSafeCommand_returned _ _ _ _ _ Hret) as Hready.
  assert (Hr1 : r1 = registry_of (toSafeCommand command disposables r))
    by (by rewrite Hret).
  rewrite Hr1, toSafeCommand_ready by exact Hready. cbv zeta.
  destruct (withSafeCommand_converter r) as (Hsid & _).
  pose proof (withSafeCommand_bound r Hbound) as Hh.
  assert (Hps : argumentProcessors (withSafeCommand r) = argumentProcessors r).
  { unfold withSafeCommand. by destruct (isSafeCommandRegistered (commandsConverter r)). }
  destruct (carriesArguments command); simpl; rewrite Hsid; auto.
Qed.

(** X13. Converting a converted command nests: the trampoline on the
    outer handle runs the trampoline identifier through the registry, hence
    the inner handle through the argument processors; when these leave that
    number as it is, the outer handle re-executes the original identifier
    with the original arguments, one level of nesting deeper. *)
Theorem toSafeCommand_nested command disposables1 disposables2 r id a args :
  safe_ready r ->
  trampoline_bound r ->
  safeCommandId (commandsConverter r) <> EmptyString ->
  truthy (cmd_command command) = Some id ->
  cmd_arguments command = Some (a :: args) ->
  exists h1 result1 scope1 r1 result2 scope2 r2,
    toSafeCommand command disposables1 r = Returned (result1, scope1) r1
    /\ cmd_arguments result1 = Some [VNumber h1]
    /\ toSafeCommand result1 disposables2 r1 = Returned (result2, scope2) r2
    /\ cmd_arguments result2 = Some [VNumber (h1 + 1)]
    /\ forall fuel,
         executeSafeCommand KnownCommands_map main_executeCommand (S fuel) r2 [VNumber (h1 + 1)] =
           executeSafeCommand KnownCommands_map main_executeCommand fuel r2
             [processArgument (argumentProcessors r2) (VNumber h1)]
         /\ (processArgument (argumentProcessors r2) (VNumber h1) = VNumber h1 ->
             executeSafeCommand KnownCommands_map main_executeCommand (S fuel) r2
                 [VNumber (h1 + 1)] =
               execute fuel r2 id (a :: args)).
Proof.
  intros Hready Hbound Hsid Hid Hargs.
  assert (Hc1 : carriesArguments command = true) by (apply carriesArguments_true; eauto).
  destruct (toSafeCommand_converts command disposables1 r Hready Hc1)
    as (r1 & Hret1 & Hmap1 & Hh1 & Hsid1).
  destruct (toSafeCommand_keeps_trampoline _ _ _ _ _ Hbound Hret1) as (Hbound1 & _ & _).
  set (result1 := safeCommand (commandsConverter r) command (handle (commandsConverter r))) in *.
  assert (Htruthy : truthy (cmd_command result1) = Some (safeCommandId (commandsConverter r))).
  { simpl. destruct (safeCommandId (commandsConverter r)); [contradiction | reflexivity]. }
  assert (Hc2 : carriesArguments result1 = true).
  { apply carriesArguments_true. eexists _, _, _. split; [exact Htruthy | reflexivity]. }
  assert (Hready1 : safe_ready r1) by (left; exact (toSafeCommand_sets_flag _ _ _ _ _ Hret1)).
  destruct (toSafeCommand_converts result1 disposables2 r1 Hready1 Hc2)
    as (r2 & Hret2 & Hmap2 & Hh2 & Hsid2).
  assert (Hbound1' : trampoline_bound r1) by (intros _; exact Hbound1).
  destruct (toSafeCommand_keeps_trampoline _ _ _ _ _ Hbound1' Hret2) as (Hbound2 & _ & _).
  assert (Houter : commandsMap (commandsConverter r2) !! (handle (commandsConverter r) + 1)
                   = Some result1).
  { rewrite Hmap2, Hh1. apply lookup_insert_eq. }
  assert (Hinner : commandsMap (commandsConverter r2) !! handle (commandsConverter r)
                   = Some command).
  { rewrite Hmap2, Hh1. rewrite lookup_insert_ne by lia. rewrite Hmap1. apply lookup_insert_eq. }
  assert (Hstep : forall fuel,
    executeSafeCommand KnownCommands_map main_executeCommand (S fuel) r2
        [VNumber (handle (commandsConverter r) + 1)] =
      executeSafeCommand KnownCommands_map main_executeCommand fuel r2
        [processArgument (argumentProcessors r2) (VNumber (handle (commandsConverter r)))]).
  { intros fuel.
    rewrite (executeSafeCommand_found _ _ _ _ _ _ result1 _ Houter Htruthy).
    rewrite <- Hsid1, <- Hsid2.
    destruct (trampoline_through_registry fuel r2
                (default [] (cmd_arguments result1)) Hbound2) as [-> _].
    reflexivity. }
  eexists _, _, _, r1, _, _, r2.
  split; [exact Hret1 |]. split; [reflexivity |]. split; [exact Hret2 |].
  split; [simpl; by rewrite Hh1 |].
  intros fuel. split; [apply Hstep |].
  intros Hfixed. rewrite Hstep, Hfixed.
  rewrite (executeSafeCommand_found _ _ _ _ _ _ command id Hinner Hid).
  by rewrite Hargs.
Qed.

End RegistryFacts.

(** * Properties of the shell process options *)

Lemma orEmpty_string (v : string) : ShellProcess.orEmpty (Some v) = v.
Proof. by destruct v. Qed.

Lemma map_fold_assign {A} (f : A -> string) (m : gmap string A) (b : gmap string string) k :
  map_fold (fun key value acc => ShellProcess.assign key (f value) acc) b m !! k =
    if decide (k = "__proto__") then b !! k
    else match m !! k with
         | Some v => Some (f v)
         | None => b !! k
         end.
Proof.
  revert k.
  apply (map_fold_weak_ind
           (fun (acc : gmap string string) (m : gmap string A) =>
              forall k, acc !! k =
                if decide (k = "__proto__") then b !! k
                else match m !! k with Some v => Some (f v) | None => b !! k end)).
  - intros k. rewrite lookup_empty. by case_decide.
  - intros i x m' acc Hfresh IH k. unfold ShellProcess.assign.
    destruct (decide (i = "__proto__")) as [-> | Hi].
    + rewrite IH. case_decide as Hk; [reflexivity |]. by rewrite lookup_insert_ne.
    + rewrite !lookup_insert. case_decide as Hik.
      * subst k. by rewrite decide_False.
      * apply IH.
Qed.

(** X14. The environment of the terminal, as the own properties of the
    object that [setUpEnvVariables] returns.  Under every name but
    [__proto__]: a variable of [process.env] is inherited with its value
    unless the custom environment names it; a custom entry wins, and one
    whose value is [null] or empty sets the variable to the empty string
    rather than removing it.  The name [__proto__] is never an own property
    of the result, whatever [process.env] and the custom environment hold
    under it.  Without a custom environment the result is [process.env]
    without that name. *)
Theorem setUpEnvVariables_lookup prEnv customEnv :
  (forall k,
     k <> "__proto__" ->
     ShellProcess.setUpEnvVariables prEnv customEnv !! k =
       match customEnv ≫= (fun custom => custom !! k) with
       | Some v => Some (ShellProcess.orEmpty v)
       | None => prEnv !! k
       end)
  /\ ShellProcess.setUpEnvVariables prEnv customEnv !! "__proto__" = None
  /\ (forall custom k,
        k <> "__proto__" ->
        customEnv = Some custom -> custom !! k = Some None ->
        ShellProcess.setUpEnvVariables prEnv customEnv !! k = Some EmptyString)
  /\ (forall k v,
        k <> "__proto__" ->
        prEnv !! k = Some v ->
        is_Some (ShellProcess.setUpEnvVariables prEnv customEnv !! k))
  /\ (customEnv = None ->
      ShellProcess.setUpEnvVariables prEnv customEnv = delete "__proto__" prEnv).
Proof.
  assert (Hinherit : forall k,
    map_fold (fun key value acc =>
                ShellProcess.assign key (ShellProcess.orEmpty (Some value)) acc)
      (∅ : gmap string string) prEnv !! k
      = if decide (k = "__proto__") then None else prEnv !! k).
  { intros k. rewrite (map_fold_assign (fun value => ShellProcess.orEmpty (Some value))).
    rewrite lookup_empty. case_decide; [reflexivity |].
    destruct (prEnv !! k) as [v |]; [by rewrite orEmpty_string | reflexivity]. }
  assert (Hlookup : forall k,
     ShellProcess.setUpEnvVariables prEnv customEnv !! k =
       if decide (k = "__proto__") then None
       else match customEnv ≫= (fun custom => custom !! k) with
            | Some v => Some (ShellProcess.orEmpty v)
            | None => prEnv !! k
            end).
  { intros k. unfold ShellProcess.setUpEnvVariables. destruct customEnv as [custom |]; simpl.
    - rewrite (map_fold_assign ShellProcess.orEmpty). rewrite Hinherit.
      case_decide; [reflexivity |]. by destruct (custom !! k).
    - apply Hinherit. }
  split; [| split; [| split; [| split]]].
  - intros k Hk. rewrite Hlookup. by rewrite decide_False.
  - rewrite Hlookup. by rewrite decide_True.
  - intros custom k Hk -> Hnull. rewrite Hlookup, decide_False by exact Hk.
    simpl. by rewrite Hnull.
  - intros k v Hk Hv. rewrite Hlookup, decide_False by exact Hk.
    destruct (customEnv ≫= (fun custom => custom !! k)); [eauto | rewrite Hv; eauto].
  - intros ->. apply map_eq. intros k. rewrite Hlookup. simpl. case_decide as Hk.
    + subst k. by rewrite lookup_delete_eq.
    + by rewrite lookup_delete_ne.
Qed.

Section ShellProcessFacts.

Variable fsPath : string -> string.
Variable parseArgs : string -> list string.

Local Abbreviation terminalProcessOptions :=
  (ShellProcess.terminalProcessOptions fsPath parseArgs).

(** X15. The command of the terminal process: a non-empty [shell]
    option wins; otherwise a non-empty [THEIA_SHELL]; otherwise [cmd.exe] on
    Windows and [SHELL] elsewhere.  The command is undefined exactly when
    none of these is there: no (or an empty) [shell] option, no (or an
    empty) [THEIA_SHELL], not Windows, and [SHELL] unset. *)
Theorem terminalProcessOptions_command host options :
  (forall s, truthy (ShellProcess.shell options) = Some s ->
     ShellProcess.tp_command (terminalProcessOptions host options) = Some s)
  /\ (truthy (ShellProcess.shell options) = None ->
      forall s, truthy (ShellProcess.process_env host !! "THEIA_SHELL") = Some s ->
      ShellProcess.tp_command (terminalProcessOptions host options) = Some s)
  /\ (truthy (ShellProcess.shell options) = None ->
      truthy (ShellProcess.process_env host !! "THEIA_SHELL") = None ->
      ShellProcess.tp_command (terminalProcessOptions host options) =
        if ShellProcess.isWindows host then Some "cmd.exe"
        else ShellProcess.process_env host !! "SHELL")
  /\ (ShellProcess.tp_command (terminalProcessOptions host options) = None <->
      truthy (ShellProcess.shell options) = None
      /\ truthy (ShellProcess.process_env host !! "THEIA_SHELL") = None
      /\ ShellProcess.isWindows host = false
      /\ ShellProcess.process_env host !! "SHELL" = None).
Proof.
  unfold ShellProcess.terminalProcessOptions, ShellProcess.getShellExecutablePath. simpl.
  split; [by intros s -> |]. split; [by intros -> s -> |]. split; [by intros -> -> |].
  destruct (truthy (ShellProcess.shell options)) as [s |].
  { split; [discriminate | intros [? _]; discriminate]. }
  destruct (truthy (ShellProcess.process_env host !! "THEIA_SHELL")) as [s |].
  { split; [discriminate | intros (_ & ? & _); discriminate]. }
  destruct (ShellProcess.isWindows host).
  { split; [discriminate | intros (_ & _ & ? & _); discriminate]. }
  split; [auto | by intros (_ & _ & _ & ?)].
Qed.

(** X16. Arguments and size of the terminal process: an [args] option
    is used as given, also when it is the empty list, and then
    [THEIA_SHELL_ARGS] is not looked at; without it the arguments are the
    parsed non-empty [THEIA_SHELL_ARGS], else [-l] on macOS and none
    elsewhere.  Columns and rows are never zero and never [NaN]: an absent,
    zero or [NaN] option gives 80 columns and 24 rows, any other number is
    kept. *)
Theorem terminalProcessOptions_args_size host options :
  (forall a, ShellProcess.args options = Some a ->
     ShellProcess.tp_args (terminalProcessOptions host options) = a)
  /\ (ShellProcess.args options = None ->
      ShellProcess.tp_args (terminalProcessOptions host options) =
        match truthy (ShellProcess.process_env host !! "THEIA_SHELL_ARGS") with
        | Some s => parseArgs s
        | None => if ShellProcess.isOSX host then ["-l"] else []
        end)
  /\ ShellProcess.tp_cols (terminalProcessOptions host options) <> ShellProcess.Num 0
  /\ ShellProcess.tp_cols (terminalProcessOptions host options) <> ShellProcess.NaN
  /\ ShellProcess.tp_rows (terminalProcessOptions host options) <> ShellProcess.Num 0
  /\ ShellProcess.tp_rows (terminalProcessOptions host options) <> ShellProcess.NaN
  /\ (ShellProcess.cols options = None \/ ShellProcess.cols options = Some (ShellProcess.Num 0)
      \/ ShellProcess.cols options = Some ShellProcess.NaN ->
      ShellProcess.tp_cols (terminalProcessOptions host options) = ShellProcess.Num 80)
  /\ (ShellProcess.rows options = None \/ ShellProcess.rows options = Some (ShellProcess.Num 0)
      \/ ShellProcess.rows options = Some ShellProcess.NaN ->
      ShellProcess.tp_rows (terminalProcessOptions host options) = ShellProcess.Num 24)
  /\ (forall n, n <> ShellProcess.Num 0 -> n <> ShellProcess.NaN ->
        ShellProcess.cols options = Some n ->
        ShellProcess.tp_cols (terminalProcessOptions host options) = n)
  /\ (forall n, n <> ShellProcess.Num 0 -> n <> ShellProcess.NaN ->
        ShellProcess.rows options = Some n ->
        ShellProcess.tp_rows (terminalProcessOptions host options) = n).
Proof.
  assert (Htruthy : forall n d, d <> 0 ->
            ShellProcess.orDefault n d <> ShellProcess.Num 0
            /\ ShellProcess.orDefault n d <> ShellProcess.NaN).
  { intros [[v | | negative] |] d Hd; simpl; try case_decide; split; congruence. }
  assert (Hkept : forall n d, n <> ShellProcess.Num 0 -> n <> ShellProcess.NaN ->
            ShellProcess.orDefault (Some n) d = n).
  { intros [v | | negative] d Hzero Hnan; simpl; [| contradiction | reflexivity].
    case_decide; [subst; contradiction | reflexivity]. }
  unfold ShellProcess.terminalProcessOptions. simpl.
  split; [by intros a -> |]. split; [by intros -> |].
  split; [apply Htruthy; discriminate |]. split; [apply Htruthy; discriminate |].
  split; [apply Htruthy; discriminate |]. split; [apply Htruthy; discriminate |].
  split; [by intros [-> | [-> | ->]] |]. split; [by intros [-> | [-> | ->]] |].
  split; intros n Hzero Hnan ->; by apply Hkept.
Qed.

End ShellProcessFacts.

(** ** The further properties at sample registries *)

Lemma registry0_trampoline_bound : trampoline_bound registry0.
Proof. intros Hflag. discriminate Hflag. Defined.

Lemma executeCommand_forwards_once_witness :
  exists r',
    executeCommand identity_map rejecting_main 1 registry_processors "y" [VNumber 1; VNumber 2]
      = Some (Rejected VUndefined, r')
    /\ proxy r' = proxy registry_processors ++ [PExecuteCommand "y" [VNumber 1; VNumber 2]].
Proof.
  destruct (executeCommand_forwards_once identity_map rejecting_main 0 registry_processors "y"
              [VNumber 1; VNumber 2] eq_refl) as (r' & Hrun & Hproxy & _).
  exists r'. split; [exact Hrun | exact Hproxy].
Defined.

Lemma registerHandler_dispose_restores_witness :
  exists d r',
    registerHandler "x" firstArgument VUndefined registry0 = Returned d r'
    /\ dispose d r' = set_proxy [PRegisterHandler "x"; PUnregisterHandler "x"] registry0.
Proof.
  destruct (registerHandler_dispose_restores "x" firstArgument VUndefined registry0
              (lookup_empty _)) as (d & r' & Hret & Hback & _).
  exists d, r'. split; [exact Hret | exact Hback].
Defined.

Lemma registerCommand_dispose_restores_witness :
  exists d r',
    registerCommand {| desc_id := "x"; desc_label := None |} (Some firstArgument) VUndefined
      registry0 = Returned d r'
    /\ dispose d r' = set_proxy (proxy (dispose d r')) registry0.
Proof.
  destruct (registerCommand_dispose_restores {| desc_id := "x"; desc_label := None |}
              (Some firstArgument) VUndefined registry0 (not_elem_of_empty _) (lookup_empty _))
    as (d & r' & Hret & Hback & _).
  exists d, r'. split; [exact Hret | exact Hback].
Defined.

Lemma registerCommand_handler_conflict_witness :
  exists e r',
    registerCommand {| desc_id := "x"; desc_label := None |} (Some sumArguments) VUndefined
      registry_handler_x = Thrown e r'
    /\ commands r' = commands registry_handler_x ∪ {["x"]}
    /\ forall handler' thisArg',
         registerCommand {| desc_id := "x"; desc_label := None |} handler' thisArg' r' =
           Thrown (VError "Command x already exist") r'.
Proof.
  destruct (registerCommand_handler_conflict {| desc_id := "x"; desc_label := None |}
              sumArguments VUndefined registry_handler_x (not_elem_of_empty _)
              (ex_intro _ (bound firstArgument VUndefined) eq_refl))
    as (r' & Hthrown & Hcommands & _ & _ & Hagain).
  eexists _, r'. split; [exact Hthrown |]. split; [exact Hcommands | exact Hagain].
Defined.

Lemma toSafeCommand_registers_once_witness :
  exists x r',
    toSafeCommand command_without_id [] registry0 = Returned x r'
    /\ isSafeCommandRegistered (commandsConverter r') = true
    /\ proxy r' = [PRegisterCommand {| desc_id := "theia_safe_cmd_0"; desc_label := None |};
                   PRegisterHandler "theia_safe_cmd_0"].
Proof.
  destruct (toSafeCommand_registers_once command_without_id [] registry0 registry0_ready)
    as (x & r' & Hret & Hflag & _ & _ & Hfirst).
  destruct (Hfirst eq_refl) as (_ & _ & Hproxy).
  exists x, r'. split; [exact Hret |]. split; [exact Hflag | exact Hproxy].
Defined.

Lemma safeCommand_through_registry_witness :
  exists h result disposables' r',
    toSafeCommand command_xy [] registry0 = Returned (result, disposables') r'
    /\ cmd_arguments result = Some [VNumber h]
    /\ forall fuel,
         dollar_executeCommand identity_map rejecting_main fuel r'
             (safeCommandId (commandsConverter r')) [VNumber h] =
           executeSafeCommand identity_map rejecting_main fuel r'
             [processArgument (argumentProcessors r') (VNumber h)].
Proof.
  destruct (safeCommand_through_registry identity_map rejecting_main command_xy [] registry0
              "x" (VNumber 1) [VNumber 2] registry0_ready registry0_trampoline_bound
              eq_refl eq_refl)
    as (h & result & disposables' & r' & Hret & _ & Hargs & Hthrough & _).
  exists h, result, disposables', r'. split; [exact Hret |]. split; [exact Hargs |].
  intros fuel. exact (proj2 (Hthrough fuel)).
Defined.

Lemma released_handle_not_reissued_witness :
  exists h1 h2 r2,
    h1 < h2
    /\ commandsMap (commandsConverter r2) !! h1 = None
    /\ commandsMap (commandsConverter r2) !! h2 = Some command_xy.
Proof.
  destruct (released_handle_not_reissued identity_map rejecting_main command_xy command_xy [] []
              registry0
              registry0_ready eq_refl eq_refl)
    as (h1 & _ & _ & _ & h2 & _ & _ & r2 & _ & _ & _ & _ & Hlt & Hgone & Hnew & _).
  exists h1, h2, r2. split; [exact Hlt |]. split; [exact Hgone | exact Hnew].
Defined.

Lemma dispose_collection_isolated_witness :
  exists h1 h2 scope1 r2,
    h1 <> h2
    /\ commandsMap (commandsConverter (dispose_collection scope1 r2)) !! h1 = None
    /\ commandsMap (commandsConverter (dispose_collection scope1 r2)) !! h2 = Some command_xy.
Proof.
  destruct (dispose_collection_isolated identity_map rejecting_main command_xy command_xy [] []
              registry0 "x" [VNumber 1; VNumber 2] registry0_ready eq_refl eq_refl eq_refl
              eq_refl eq_refl)
    as (h1 & _ & scope1 & _ & h2 & _ & _ & r2 & _ & _ & _ & _ & Hne & Hgone & Hkept & _).
  exists h1, h2, scope1, r2. split; [exact Hne |]. split; [exact Hgone | exact Hkept].
Defined.

Lemma toSafeCommand_stays_ready_witness :
  exists x r1,
    toSafeCommand command_xy [] registry0 = Returned x r1
    /\ safe_ready r1
    /\ forall scope, safe_ready (dispose_collection scope r1).
Proof.
  destruct (toSafeCommand_converts command_xy [] registry0 registry0_ready eq_refl)
    as (r1 & Hret & _).
  destruct (toSafeCommand_stays_ready _ _ _ _ _ Hret) as (Hready & Hscope & _).
  eexists _, r1. split; [exact Hret |]. split; [exact Hready | exact Hscope].
Defined.

Lemma toSafeCommand_nested_witness :
  exists h1 r2,
    forall fuel,
      executeSafeCommand identity_map rejecting_main (S fuel) r2 [VNumber (h1 + 1)] =
        executeSafeCommand identity_map rejecting_main fuel r2
          [processArgument (argumentProcessors r2) (VNumber h1)].
Proof.
  assert (Hsid : safeCommandId (commandsConverter registry0) <> EmptyString)
    by (intros Hempty; discriminate Hempty).
  destruct (toSafeCommand_nested identity_map rejecting_main command_xy [] [] registry0
              "x" (VNumber 1) [VNumber 2] registry0_ready registry0_trampoline_bound Hsid
              eq_refl eq_refl)
    as (h1 & _ & _ & _ & _ & _ & r2 & _ & _ & _ & _ & Hnested).
  exists h1, r2. intros fuel. exact (proj1 (Hnested fuel)).
Defined.
